(** * Communication-Improvement: consensus aggregation and mistake highlighting

    A shallow embedding of the two pieces of logic of the repository.

    - [services/geminiService.ts]: the check of one parsed reply of the model
      ([performSingleAnalysis]) and the merge of three replies
      ([analyzeAudio]).  Three revisions of the file are embedded: the one that
      validates every run and matches dimensions by name ([GeminiService],
      and [GeminiServiceBinary64] for its arithmetic), the one with a single
      run ([GeminiServiceSingle]), and the one that rounds and matches
      dimensions by index ([GeminiServiceRounded]).
    - [components/ResultsCard.tsx]: the component [HighlightedText]
      ([ResultsCard]), down to the regular expression it builds and the loop
      of [String.prototype.split] it relies on, and the scores the card
      prints ([ResultsCardScores]).
    - The rest of the code: the revision of the service with a seed
      ([GeminiServiceSeeded]), the reading of the audio file ([FileReading]),
      the two revisions of [RatingDisplay], and the state and the views of
      the two revisions of [App] ([AppSingle], [App]).

    Numbers.  The merge of the validating revision is embedded twice.
    [GeminiServiceBinary64] has the numbers of the code, binary64: its sums
    and quotients are those of IEEE 754, rounded to nearest (the primitive
    floats of Rocq), and what the merged scores are is stated there.  The
    other modules take a number as an exact rational ([Q]), with the
    mathematical sums and quotients; they carry what does not depend on the
    rounding of binary64: which run fails and what is thrown, what is
    copied, the ranges of the scores, and the roundings to decimals, stated
    with a tolerance.

    Strings.  A JavaScript string is a [string] whose characters stand for
    the UTF-16 code units of the same value, U+0000 to U+00FF; the two case
    mappings used by the component are the Unicode ones on that range.  A
    promise is modelled by the way it settles. *)

From Stdlib Require Import QArith Qround Qabs ZArith List String Ascii Bool Lia Lqa.
From Stdlib Require Floats.
Import ListNotations.

Local Open Scope string_scope.
Local Set Warnings "-inexact-float".

(** ** JavaScript values, truthiness, exceptions and promises *)

Module Js.

(** What [JSON.parse] can return. *)
#[local] Unset Elimination Schemes.
Inductive Value : Type :=
| Null
| Boolean (b : bool)
| Number (q : Q)
| Str (s : string)
| Arr (items : list Value)
| Obj (fields : list (string * Value)).
#[local] Set Elimination Schemes.

(** The properties of an object are listed as pairs; a key listed twice is
    read at its first pair. *)
Fixpoint lookup (key : string) (fields : list (string * Value)) : option Value :=
  match fields with
  | [] => None
  | (k, v) :: rest => if String.eqb k key then Some v else lookup key rest
  end.

(** [v.key] for a key that no prototype defines (none of the field names
    of the response schema is inherited): [None] is [undefined].  Reading a
    property of [null] throws and is handled where it happens. *)
Definition get (key : string) (v : Value) : option Value :=
  match v with
  | Obj fields => lookup key fields
  | _ => None
  end.

(** ToBoolean. *)
Definition truthy (v : option Value) : bool :=
  match v with
  | None => false
  | Some Null => false
  | Some (Boolean b) => b
  | Some (Number q) => negb (Qeq_bool q 0)
  | Some (Str s) => negb (String.eqb s "")
  | Some (Arr _) => true
  | Some (Obj _) => true
  end.

Record Error : Type := mkError { errName : string; errMessage : string }.

(** A thrown value: [error instanceof Error] holds for [AnError] only. *)
Inductive Thrown : Type :=
| AnError (e : Error)
| NotAnError (v : Value).

Inductive Settled (A : Type) : Type :=
| Fulfilled (a : A)
| Rejected (t : Thrown).
Arguments Fulfilled {A} a.
Arguments Rejected {A} t.

Fixpoint values {A} (ps : list (Settled A)) : list A :=
  match ps with
  | [] => []
  | Fulfilled a :: rest => a :: values rest
  | Rejected _ :: rest => values rest
  end.

Definition rejection {A} (p : option (Settled A)) : option Thrown :=
  match p with
  | Some (Rejected t) => Some t
  | _ => None
  end.

Fixpoint firstRejection {A} (ps : list (Settled A)) (order : list nat) : option Thrown :=
  match order with
  | [] => None
  | i :: rest =>
      match rejection (nth_error ps i) with
      | Some t => Some t
      | None => firstRejection ps rest
      end
  end.

(** [Promise.all]: fulfilled with all the values, in the order of the
    promises, when every promise is fulfilled; rejected with the reason of
    the promise that is rejected first otherwise.  Which one is first is
    decided by the order in which the promises settle, [settleOrder] (a list
    of indices); indices it does not mention settle afterwards, in order. *)
Definition Promise_all {A} (settleOrder : list nat) (ps : list (Settled A))
  : Settled (list A) :=
  match firstRejection ps (settleOrder ++ seq 0 (List.length ps)) with
  | Some t => Rejected t
  | None => Fulfilled (values ps)
  end.

End Js.

(** ** [types.ts] *)

Module Types.

Record Dimension : Type := mkDimension { name : string; score : Q }.

Record Mistake : Type := mkMistake {
  incorrectPhrase : string;
  correction : string;
  explanation : string
}.

Inductive Speaker : Type := User | AI.

Record ConversationTurn : Type := mkTurn {
  speaker : Speaker;
  text : string;
  mistakes : option (list Mistake)
}.

Record FillerWordUsage : Type := mkFiller { word : string; count : Q }.

Record AnalysisResult : Type := mkResult {
  overallScore : Q;
  dimensionAnalysis : list Dimension;
  feedback : list string;
  fillerWords : list FillerWordUsage;
  conversation : list ConversationTurn
}.

End Types.

(** ** [services/geminiService.ts], the revision with validation

    Numbers are exact rationals here; [GeminiServiceBinary64] has the same
    functions in binary64. *)

Module GeminiService.
Import Js Types.

(** What one [ai.models.generateContent] call, followed by
    [JSON.parse(response.text.trim())], comes to: the call is rejected, or
    reading and parsing the text throws, or a value is parsed. *)
Inductive Reply : Type :=
| CallFails (t : Thrown)
| Unparsable (e : Error)
| Parsed (result : Value).

Definition nullPropertyError : Error :=
  mkError "TypeError" "Cannot read properties of null (reading 'overallScore')".

Definition missingFieldsError : Error :=
  mkError "Error" "Invalid response structure from API. Missing required fields.".

Definition unknownError : Error :=
  mkError "Error" "An unknown error occurred during audio analysis.".

Definition configurationError : Error :=
  mkError "Error" "Configuration Error: The API_KEY environment variable is not set. Please add it to your Vercel project's Environment Variables settings and redeploy.".

(** The condition of the [if] of [performSingleAnalysis]. *)
Definition missingRequired (result : Value) : bool :=
  negb (truthy (get "overallScore" result))
  || negb (truthy (get "dimensionAnalysis" result))
  || negb (truthy (get "feedback" result))
  || negb (truthy (get "fillerWords" result))
  || negb (truthy (get "conversation" result)).

(** The promise [performSingleAnalysis] returns, settled.  The value it is
    fulfilled with is the parsed value itself: [result as AnalysisResult]
    does nothing at run time. *)
Definition performSingleAnalysis (reply : Reply) : Settled Value :=
  match reply with
  | CallFails t => Rejected t
  | Unparsable e => Rejected (AnError e)
  | Parsed Null => Rejected (AnError nullPropertyError)
  | Parsed result =>
      if missingRequired result
      then Rejected (AnError missingFieldsError)
      else Fulfilled result
  end.

(** *** The static type [AnalysisResult]

    [analyzeAudio] works on its results at the type [AnalysisResult].
    [asAnalysisResult] reads a parsed value at that type and is [None] for a
    value that is not of the declared shape. *)

Fixpoint traverse {A B} (f : A -> option B) (l : list A) : option (list B) :=
  match l with
  | [] => Some []
  | a :: rest =>
      match f a, traverse f rest with
      | Some b, Some bs => Some (b :: bs)
      | _, _ => None
      end
  end.

Definition asString (v : Value) : option string :=
  match v with Str s => Some s | _ => None end.

Definition asArray {B} (f : Value -> option B) (v : option Value) : option (list B) :=
  match v with Some (Arr items) => traverse f items | _ => None end.

Definition asDimension (v : Value) : option Dimension :=
  match get "name" v, get "score" v with
  | Some (Str n), Some (Number s) => Some (mkDimension n s)
  | _, _ => None
  end.

Definition asMistake (v : Value) : option Mistake :=
  match get "incorrectPhrase" v, get "correction" v, get "explanation" v with
  | Some (Str p), Some (Str c), Some (Str e) => Some (mkMistake p c e)
  | _, _, _ => None
  end.

Definition asSpeaker (v : option Value) : option Speaker :=
  match v with
  | Some (Str s) =>
      if String.eqb s "User" then Some User
      else if String.eqb s "AI" then Some AI else None
  | _ => None
  end.

Definition asTurn (v : Value) : option ConversationTurn :=
  match asSpeaker (get "speaker" v), get "text" v with
  | Some sp, Some (Str t) =>
      match get "mistakes" v with
      | None => Some (mkTurn sp t None)
      | Some ms =>
          match asArray asMistake (Some ms) with
          | Some l => Some (mkTurn sp t (Some l))
          | None => None
          end
      end
  | _, _ => None
  end.

Definition asFillerWordUsage (v : Value) : option FillerWordUsage :=
  match get "word" v, get "count" v with
  | Some (Str w), Some (Number c) => Some (mkFiller w c)
  | _, _ => None
  end.

Definition asAnalysisResult (v : Value) : option AnalysisResult :=
  match get "overallScore" v,
        asArray asDimension (get "dimensionAnalysis" v),
        asArray asString (get "feedback" v),
        asArray asFillerWordUsage (get "fillerWords" v),
        asArray asTurn (get "conversation" v) with
  | Some (Number s), Some ds, Some fb, Some fw, Some cv => Some (mkResult s ds fb fw cv)
  | _, _, _, _, _ => None
  end.

(** *** The merge of [analyzeAudio] *)

Definition analysisRuns : nat := 3.

(** [result.dimensionAnalysis.find(d => d.name === dimension.name)] *)
Definition findDimension (n : string) (ds : list Dimension) : option Dimension :=
  List.find (fun d => String.eqb (name d) n) ds.

(** [results.reduce((sum, result) => sum + result.overallScore, 0)] *)
Definition totalOverallScore (results : list AnalysisResult) : Q :=
  fold_left (fun sum result => sum + overallScore result) results 0.

(** The inner [reduce], for the dimension [dimension] of the first result. *)
Definition totalDimScore (results : list AnalysisResult) (dimension : Dimension) : Q :=
  fold_left
    (fun sum result =>
       let correspondingDim := findDimension (name dimension) (dimensionAnalysis result) in
       sum + match correspondingDim with
             | Some d => score d
             | None => 0
             end)
    results 0.

(** The [forEach] that fills [averagedDimensions]; its guard
    [if (finalResult.dimensionAnalysis)] holds for every array. *)
Definition averagedDimensions (results : list AnalysisResult) (first : AnalysisResult)
  : list Dimension :=
  map (fun dimension =>
         mkDimension (name dimension)
                     (totalDimScore results dimension / inject_Z (Z.of_nat analysisRuns)))
      (dimensionAnalysis first).

(** The body of the [try] after [Promise.all]: [finalResult] starts as a
    copy of [results[0]], then its two numeric fields are overwritten. *)
Definition mergeResults (first : AnalysisResult) (results : list AnalysisResult)
  : AnalysisResult :=
  mkResult
    (totalOverallScore results / inject_Z (Z.of_nat analysisRuns))
    (averagedDimensions results first)
    (feedback first)
    (fillerWords first)
    (conversation first).

(** What a call of [analyzeAudio] comes to. *)
Inductive Outcome : Type :=
| Returns (r : AnalysisResult)
| Throws (t : Thrown)
| Untyped.  (* every reply passed the check of [performSingleAnalysis], but one
               of them is not an [AnalysisResult]: outside the typed program *)

(** The [catch] of [analyzeAudio]. *)
Definition rethrow (error : Thrown) : Thrown :=
  match error with
  | AnError e => AnError e
  | NotAnError _ => AnError unknownError
  end.

(** [analyzeAudio]: [API_KEY] is [process.env.API_KEY], [service i] what
    the [i]-th call to the model comes to, [settleOrder] the order in which
    the three promises settle. *)
Definition analyzeAudio (API_KEY : option string) (service : nat -> Reply)
  (settleOrder : list nat) : Outcome :=
  if negb (truthy (option_map Str API_KEY)) then Throws (AnError configurationError)
  else
    let analysisPromises :=
      map (fun i => performSingleAnalysis (service i)) (seq 0 analysisRuns) in
    match Promise_all settleOrder analysisPromises with
    | Rejected error => Throws (rethrow error)
    | Fulfilled values =>
        match traverse asAnalysisResult values with
        | Some (first :: rest) => Returns (mergeResults first (first :: rest))
        | _ => Untyped
        end
    end.

End GeminiService.

(** ** [services/geminiService.ts], the revision with validation, in binary64

    The same two functions as in [GeminiService], with the numbers of the
    replies as the binary64 values they are in the code, so that the sums
    and the quotients of the merge are rounded as the code rounds them. *)

Module JsBinary64.
Import Floats.PrimFloat.

(** What [JSON.parse] can return, a number being the binary64 value that
    its text denotes. *)
#[local] Unset Elimination Schemes.
Inductive Value : Type :=
| Null
| Boolean (b : bool)
| Number (x : float)
| Str (s : string)
| Arr (items : list Value)
| Obj (fields : list (string * Value)).
#[local] Set Elimination Schemes.

Fixpoint lookup (key : string) (fields : list (string * Value)) : option Value :=
  match fields with
  | [] => None
  | (k, v) :: rest => if String.eqb k key then Some v else lookup key rest
  end.

Definition get (key : string) (v : Value) : option Value :=
  match v with
  | Obj fields => lookup key fields
  | _ => None
  end.

(** ToBoolean: of the numbers, [0], [-0] and [NaN] are falsy. *)
Definition truthy (v : option Value) : bool :=
  match v with
  | None => false
  | Some Null => false
  | Some (Boolean b) => b
  | Some (Number x) => negb (is_zero x || is_nan x)
  | Some (Str s) => negb (String.eqb s "")
  | Some (Arr _) => true
  | Some (Obj _) => true
  end.

End JsBinary64.

Module GeminiServiceBinary64.
Import Js.
Import JsBinary64 Floats.PrimFloat.

Record Dimension : Type := mkDimension { name : string; score : float }.

(** The merge reads [overallScore] and [dimensionAnalysis] only; the three
    other fields are carried as they were parsed. *)
Record AnalysisResult : Type := mkResult {
  overallScore : float;
  dimensionAnalysis : list Dimension;
  feedback : Value;
  fillerWords : Value;
  conversation : Value
}.

Inductive Reply : Type :=
| CallFails (t : Thrown)
| Unparsable (e : Error)
| Parsed (result : Value).

(** The condition of the [if] of [performSingleAnalysis]. *)
Definition missingRequired (result : Value) : bool :=
  negb (truthy (get "overallScore" result))
  || negb (truthy (get "dimensionAnalysis" result))
  || negb (truthy (get "feedback" result))
  || negb (truthy (get "fillerWords" result))
  || negb (truthy (get "conversation" result)).

Definition performSingleAnalysis (reply : Reply) : Settled Value :=
  match reply with
  | CallFails t => Rejected t
  | Unparsable e => Rejected (AnError e)
  | Parsed Null => Rejected (AnError GeminiService.nullPropertyError)
  | Parsed result =>
      if missingRequired result
      then Rejected (AnError GeminiService.missingFieldsError)
      else Fulfilled result
  end.

Definition asDimension (v : Value) : option Dimension :=
  match get "name" v, get "score" v with
  | Some (Str n), Some (Number s) => Some (mkDimension n s)
  | _, _ => None
  end.

(** A parsed value at the type [AnalysisResult], as far as the merge reads
    it: the overall score is a number and the dimensions are an array of
    named scores. *)
Definition asAnalysisResult (v : Value) : option AnalysisResult :=
  match get "overallScore" v, get "dimensionAnalysis" v,
        get "feedback" v, get "fillerWords" v, get "conversation" v with
  | Some (Number s), Some (Arr ds), Some fb, Some fw, Some cv =>
      match GeminiService.traverse asDimension ds with
      | Some dims => Some (mkResult s dims fb fw cv)
      | None => None
      end
  | _, _, _, _, _ => None
  end.

(** [const analysisRuns = 3], as the number the two quotients divide by. *)
Definition analysisRuns : float := 3%float.

(** [result.dimensionAnalysis.find(d => d.name === dimension.name)] *)
Definition findDimension (n : string) (ds : list Dimension) : option Dimension :=
  List.find (fun d => String.eqb (name d) n) ds.

(** [results.reduce((sum, result) => sum + result.overallScore, 0)] *)
Definition totalOverallScore (results : list AnalysisResult) : float :=
  fold_left (fun sum result => (sum + overallScore result)%float) results 0%float.

(** The inner [reduce], for the dimension [dimension] of the first result. *)
Definition totalDimScore (results : list AnalysisResult) (dimension : Dimension) : float :=
  fold_left
    (fun sum result =>
       let correspondingDim := findDimension (name dimension) (dimensionAnalysis result) in
       (sum + match correspondingDim with
              | Some d => score d
              | None => 0
              end)%float)
    results 0%float.

Definition averagedDimensions (results : list AnalysisResult) (first : AnalysisResult)
  : list Dimension :=
  map (fun dimension =>
         mkDimension (name dimension) (totalDimScore results dimension / analysisRuns)%float)
      (dimensionAnalysis first).

Definition mergeResults (first : AnalysisResult) (results : list AnalysisResult)
  : AnalysisResult :=
  mkResult
    (totalOverallScore results / analysisRuns)%float
    (averagedDimensions results first)
    (feedback first)
    (fillerWords first)
    (conversation first).

Inductive Outcome : Type :=
| Returns (r : AnalysisResult)
| Throws (t : Thrown)
| Untyped.  (* every reply passed the check, but the overall score of one is
               no number or its dimensions are no array of named scores *)

Definition analyzeAudio (API_KEY : option string) (service : nat -> Reply)
  (settleOrder : list nat) : Outcome :=
  if negb (Js.truthy (option_map Js.Str API_KEY))
  then Throws (AnError GeminiService.configurationError)
  else
    let analysisPromises :=
      map (fun i => performSingleAnalysis (service i)) (seq 0 GeminiService.analysisRuns) in
    match Promise_all settleOrder analysisPromises with
    | Rejected error => Throws (GeminiService.rethrow error)
    | Fulfilled values =>
        match GeminiService.traverse asAnalysisResult values with
        | Some (first :: rest) => Returns (mergeResults first (first :: rest))
        | _ => Untyped
        end
    end.

End GeminiServiceBinary64.

(** ** [services/geminiService.ts], the revision with a single run *)

Module GeminiServiceSingle.
Import Js.

Definition missingKeyError : Error :=
  mkError "Error" "API_KEY environment variable not set".

Definition missingFieldsError : Error :=
  mkError "Error" "Invalid response structure from API. Missing required fields.".

Definition unknownError : Error :=
  mkError "Error" "An unknown error occurred during audio analysis.".

(** The body of the [try]. *)
Definition tryBody (reply : GeminiService.Reply) : Settled Value :=
  match reply with
  | GeminiService.CallFails t => Rejected t
  | GeminiService.Unparsable e => Rejected (AnError e)
  | GeminiService.Parsed Null => Rejected (AnError GeminiService.nullPropertyError)
  | GeminiService.Parsed result =>
      if negb (truthy (get "overallScore" result))
         || negb (truthy (get "dimensionAnalysis" result))
         || negb (truthy (get "feedback" result))
         || negb (truthy (get "fillerWords" result))
         || negb (truthy (get "conversation" result))
      then Rejected (AnError missingFieldsError)
      else Fulfilled result
  end.

(** [analyzeAudio]: the [catch] wraps the message of an [Error]. *)
Definition analyzeAudio (API_KEY : option string) (reply : GeminiService.Reply)
  : Settled Value :=
  if negb (truthy (option_map Str API_KEY)) then Rejected (AnError missingKeyError)
  else
    match tryBody reply with
    | Fulfilled result => Fulfilled result
    | Rejected (AnError error) =>
        Rejected (AnError (mkError "Error" ("Failed to analyze audio: " ++ errMessage error)%string))
    | Rejected (NotAnError _) => Rejected (AnError unknownError)
    end.

End GeminiServiceSingle.

(** ** [services/geminiService.ts], the revision that rounds

    Its [types.ts] names the dimensions [dimensions] and gives a turn at most
    one [mistake]. *)

Module GeminiServiceRounded.
Import Js.

Record Dimension : Type := mkDimension { name : string; score : Q }.

Record Mistake : Type := mkMistake {
  incorrectPhrase : string;
  suggestion : string;
  explanation : string
}.

Inductive Speaker : Type := User | AI.

Record ConversationTurn : Type := mkTurn {
  speaker : Speaker;
  text : string;
  mistake : option Mistake
}.

Record FillerWord : Type := mkFiller { word : string; count : Q }.

Record AnalysisResult : Type := mkResult {
  overallScore : Q;
  dimensions : list Dimension;
  feedback : list string;
  fillerWords : list FillerWord;
  conversation : list ConversationTurn
}.

Definition missingKeyError : Error :=
  mkError "Error" "API_KEY environment variable not set. Please set it in your Vercel project settings.".

Definition failedError : Error :=
  mkError "Error" "Failed to analyze audio. The model may have had trouble with the file.".

(** The number [x.toFixed(2)] denotes: for [|x| < 10^21] the integer [n]
    with [n / 100] nearest to [|x|], the larger one on a tie, over 100, with
    the sign of [x]; from [10^21] on [toFixed] prints [x] itself. *)
Definition toFixed2 (x : Q) : Q :=
  let a := Qabs x in
  let r := if Qle_bool (inject_Z (10 ^ 21)) a then a
           else inject_Z (Qfloor (a * 100 + (1 # 2))) / 100 in
  if Qle_bool 0 x then r else - r.

(** [parseFloat(x.toFixed(2))] *)
Definition round2 (x : Q) : Q := toFixed2 x.

(** [results.reduce((acc, r) => acc + r.overallScore, 0) / results.length] *)
Definition averageOverall (results : list AnalysisResult) : Q :=
  fold_left (fun acc r => acc + overallScore r) results 0
  / inject_Z (Z.of_nat (List.length results)).

(** [results.reduce((acc, r) => acc + r.dimensions[index].score, 0)], which
    throws a [TypeError] ([None]) when some result has no dimension at
    [index]. *)
Definition totalAt (results : list AnalysisResult) (index : nat) : option Q :=
  fold_left
    (fun acc r =>
       match acc, nth_error (dimensions r) index with
       | Some a, Some d => Some (a + score d)
       | _, _ => None
       end)
    results (Some 0).

(** The [forEach] over [avgResult.dimensions], from index [index] on. *)
Fixpoint averageDimensions (results : list AnalysisResult) (index : nat)
  (dims : list Dimension) : option (list Dimension) :=
  match dims with
  | [] => Some []
  | dim :: rest =>
      match totalAt results index with
      | None => None
      | Some total =>
          let avgScore := total / inject_Z (Z.of_nat (List.length results)) in
          match averageDimensions results (S index) rest with
          | Some rest' => Some (mkDimension (name dim) (round2 avgScore) :: rest')
          | None => None
          end
      end
  end.

(** [analyzeAudio] once [fileToBase64] has given the audio: [service i] is
    what the [i]-th [callApi()] comes to. *)
Definition analyzeAudio (API_KEY : option string)
  (service : nat -> Settled AnalysisResult) (settleOrder : list nat)
  : Settled AnalysisResult :=
  if negb (truthy (option_map Str API_KEY)) then Rejected (AnError missingKeyError)
  else
    match Promise_all settleOrder [service 0%nat; service 1%nat; service 2%nat] with
    | Rejected _ => Rejected (AnError failedError)
    | Fulfilled results =>
        match results with
        | [] => Rejected (AnError failedError)
        | avgResult :: _ =>
            match averageDimensions results 0 (dimensions avgResult) with
            | None => Rejected (AnError failedError)
            | Some dims =>
                Fulfilled (mkResult (round2 (averageOverall results)) dims
                             (feedback avgResult) (fillerWords avgResult)
                             (conversation avgResult))
            end
        end
    end.

(** [analyzeAudio] from its first line: [getAiClient()] and then
    [await fileToBase64(audioFile)] stand before the [try], so that what
    they throw reaches the caller as it is; [read] is what the promise of
    [fileToBase64] comes to ([None]: [undefined]). *)
Definition analyzeAudioOfFile (API_KEY : option string) (read : Settled (option string))
  (service : nat -> Settled AnalysisResult) (settleOrder : list nat)
  : Settled AnalysisResult :=
  if negb (truthy (option_map Str API_KEY)) then Rejected (AnError missingKeyError)
  else
    match read with
    | Rejected reason => Rejected reason
    | Fulfilled base64Audio => analyzeAudio API_KEY service settleOrder
    end.

End GeminiServiceRounded.

(** ** [components/ResultsCard.tsx]: [HighlightedText] *)

Module ResultsCard.
Import Types.

(** *** The regular expression *)

Definition isOneOf (chars : string) (c : ascii) : bool :=
  existsb (Ascii.eqb c) (list_ascii_of_string chars).

(** The class [[.*+?^${}()|[\]\\]] of the replacement. *)
Definition isSpecial : ascii -> bool := isOneOf ".*+?^${}()|[]\".

(** [phrase.replace(/[.*+?^${}()|[\]\\]/g, '\\$&')]: a backslash goes
    before every character of the class. *)
Fixpoint escapeSpecial (phrase : string) : string :=
  match phrase with
  | EmptyString => EmptyString
  | String c rest =>
      if isSpecial c then String "\" (String c (escapeSpecial rest))
      else String c (escapeSpecial rest)
  end.

(** The first argument of [new RegExp]. *)
Definition regexSource (mistakes : list Mistake) : string :=
  "(" ++ String.concat "|" (map (fun m => escapeSpecial (incorrectPhrase m)) mistakes) ++ ")".

(** SyntaxCharacter of the pattern grammar: the characters that are
    pattern syntax unless a backslash precedes them. *)
Definition isSyntaxCharacter : ascii -> bool := isOneOf "^$\.*+?()[]{}|".

Inductive Token : Type :=
| Literal (c : ascii)      (* a pattern character, or an escaped syntax character *)
| Syntax (c : ascii)       (* a syntax character, not escaped *)
| Escape (c : ascii)       (* a backslash before any other character *)
| TrailingBackslash.

Fixpoint tokenize (source : string) : list Token :=
  match source with
  | EmptyString => []
  | String c rest =>
      if Ascii.eqb c "\" then
        match rest with
        | EmptyString => [TrailingBackslash]
        | String d rest' =>
            (if isSyntaxCharacter d then Literal d else Escape d) :: tokenize rest'
        end
      else (if isSyntaxCharacter c then Syntax c else Literal c) :: tokenize rest
  end.

(** The inside of a group whose alternatives are literal: the list of the
    alternatives, up to the closing parenthesis that ends the pattern.  Any
    other syntax (a quantifier, a wildcard, an assertion, a class, a nested
    group, an escape sequence) is outside this fragment: [None]. *)
Fixpoint parseDisjunction (tokens : list Token) : option (list string) :=
  match tokens with
  | Literal c :: rest =>
      match parseDisjunction rest with
      | Some (alternative :: others) => Some (String c alternative :: others)
      | _ => None
      end
  | Syntax c :: rest =>
      if Ascii.eqb c "|" then option_map (cons EmptyString) (parseDisjunction rest)
      else if Ascii.eqb c ")" then
        match rest with
        | [] => Some [EmptyString]
        | _ => None
        end
      else None
  | _ => None
  end.

(** [new RegExp(source, 'gi')] for a source of the form [(a1|...|an)], as
    the list of its alternatives. *)
Definition newRegExp (source : string) : option (list string) :=
  match tokenize source with
  | Syntax c :: rest => if Ascii.eqb c "(" then parseDisjunction rest else None
  | _ => None
  end.

(** Canonicalize, for the flag [i] without the flag [u]: the code unit of
    [ch.toUpperCase()] when that is a single code unit, [ch] itself
    otherwise.  On U+0000 to U+00FF: the letters a to z and the letters
    U+00E0 to U+00FE but U+00F7 go 32 down; U+00B5 goes to U+039C and U+00FF
    to U+0178; U+00DF, whose upper case is two code units, stays. *)
Definition canonicalize (ch : ascii) : N :=
  let n := N_of_ascii ch in
  (if (97 <=? n) && (n <=? 122) then n - 32
   else if n =? 181 then 924
   else if (224 <=? n) && (n <=? 254) && negb (n =? 247) then n - 32
   else if n =? 255 then 376
   else n)%N.

(** One alternative against the input at the current position: the text
    matched and the input after it. *)
Fixpoint matchLiteral (alternative input : string) : option (string * string) :=
  match alternative with
  | EmptyString => Some (EmptyString, input)
  | String a alternative' =>
      match input with
      | EmptyString => None
      | String c input' =>
          if N.eqb (canonicalize a) (canonicalize c) then
            match matchLiteral alternative' input' with
            | Some (matched, after) => Some (String c matched, after)
            | None => None
            end
          else None
      end
  end.

(** The alternatives are tried from left to right. *)
Fixpoint matchDisjunction (alternatives : list string) (input : string)
  : option (string * string) :=
  match alternatives with
  | [] => None
  | alternative :: others =>
      match matchLiteral alternative input with
      | Some r => Some r
      | None => matchDisjunction others input
      end
  end.

(** A string is falsy exactly when it is empty. *)
Definition isEmpty (s : string) : bool := String.eqb s EmptyString.

(** *** [text.split(regex)]

    The loop of [RegExp.prototype[Symbol.split]] on [S], with [pending] for
    [S[p..q)] and [input] for [S[q..)].  A match at [q] ends at [e = q +
    length matched], so that [e = p] says that both [matched] and [pending]
    are empty.  Every turn either advances [q] or moves [p] up to [q], which
    bounds the number of turns by twice the length of [S]: [fuel] counts
    them.  The limit of 2^32 - 1 pieces is not modelled. *)
Fixpoint splitLoop (regex : list string) (fuel : nat) (pending input : string)
  : option (list string) :=
  match input with
  | EmptyString => Some [pending]
  | String c input' =>
      match fuel with
      | O => None
      | S fuel' =>
          match matchDisjunction regex input with
          | None => splitLoop regex fuel' (pending ++ String c EmptyString) input'
          | Some (matched, after) =>
              if isEmpty matched && isEmpty pending
              then splitLoop regex fuel' (pending ++ String c EmptyString) input'
              else option_map (fun A => pending :: matched :: A)
                     (splitLoop regex fuel' EmptyString after)
          end
      end
  end.

Definition split (regex : list string) (S : string) : option (list string) :=
  match S with
  | EmptyString =>
      match matchDisjunction regex S with
      | Some _ => Some []
      | None => Some [S]
      end
  | _ => splitLoop regex (2 * String.length S) EmptyString S
  end.

(** *** The component *)

(** [toLowerCase] on U+0000 to U+00FF: the letters A to Z and the letters
    U+00C0 to U+00DE but U+00D7 go 32 up. *)
Definition lowerChar (c : ascii) : ascii :=
  let n := N_of_ascii c in
  (if (65 <=? n) && (n <=? 90) then ascii_of_N (n + 32)
   else if (192 <=? n) && (n <=? 222) && negb (n =? 215) then ascii_of_N (n + 32)
   else c)%N.

Fixpoint toLowerCase (s : string) : string :=
  match s with
  | EmptyString => EmptyString
  | String c rest => String (lowerChar c) (toLowerCase rest)
  end.

Inductive Span : Type :=
| Plain (part : string)
| Highlight (part : string) (mistake : Mistake).

Definition spanText (s : Span) : string :=
  match s with
  | Plain part => part
  | Highlight part _ => part
  end.

(** The callback of [parts.map]. *)
Definition renderPart (mistakes : list Mistake) (part : string) : Span :=
  match List.find (fun m => String.eqb (toLowerCase (incorrectPhrase m)) (toLowerCase part))
                  mistakes with
  | Some mistake => Highlight part mistake
  | None => Plain part
  end.

(** [HighlightedText], as the sequence of the children of the fragment it
    returns.  [None]: [new RegExp] or [split] left the fragment modelled. *)
Definition HighlightedText (text : string) (mistakes : option (list Mistake))
  : option (list Span) :=
  match mistakes with
  | None => Some [Plain text]
  | Some [] => Some [Plain text]
  | Some ms =>
      match newRegExp (regexSource ms) with
      | None => None
      | Some regex =>
          match split regex text with
          | None => None
          | Some A =>
              let parts := filter (fun part => negb (isEmpty part)) A in
              Some (map (renderPart ms) parts)
          end
      end
  end.

End ResultsCard.

(** ** [services/geminiService.ts], the revision with a seed

    One call with a fixed seed; the scores of the reply are rounded and
    its fluency percentage is made a whole number. *)

Module GeminiServiceSeeded.
Import Js.

Record AnalysisResult : Type := mkResult {
  overallScore : Q;
  dimensions : list GeminiServiceRounded.Dimension;
  fluencySpeechRatePercentage : Q;
  feedback : list string;
  fillerWords : list GeminiServiceRounded.FillerWord;
  conversation : list GeminiServiceRounded.ConversationTurn
}.

(** [Math.round(x)]: the integer nearest to [x], the larger one on a tie. *)
Definition Math_round (x : Q) : Q := inject_Z (Qfloor (x + (1 # 2))).

(** The three assignments after [JSON.parse]. *)
Definition roundScores (result : AnalysisResult) : AnalysisResult :=
  mkResult
    (GeminiServiceRounded.round2 (overallScore result))
    (map (fun dim =>
            GeminiServiceRounded.mkDimension (GeminiServiceRounded.name dim)
              (GeminiServiceRounded.round2 (GeminiServiceRounded.score dim)))
         (dimensions result))
    (Math_round (fluencySpeechRatePercentage result))
    (feedback result)
    (fillerWords result)
    (conversation result).

(** [analyzeAudio]: [reply] is what the call to the model, parsed, comes
    to.  [getAiClient] throws before the [try]; the [catch] replaces
    whatever was thrown. *)
Definition analyzeAudio (API_KEY : option string) (reply : Settled AnalysisResult)
  : Settled AnalysisResult :=
  if negb (truthy (option_map Str API_KEY))
  then Rejected (AnError GeminiServiceRounded.missingKeyError)
  else
    match reply with
    | Fulfilled result => Fulfilled (roundScores result)
    | Rejected _ => Rejected (AnError GeminiServiceRounded.failedError)
    end.

End GeminiServiceSeeded.

(** ** Reading the audio file: [fileToGenerativePart], [fileToBase64]

    Both keep [reader.result.split(',')[1]] of the data URL that the
    [FileReader] produces. *)

Module FileReading.

(** [s.split(',')], with [piece] for the characters read since the last
    comma. *)
Fixpoint splitComma (piece : string) (s : string) : list string :=
  match s with
  | EmptyString => [piece]
  | String c rest =>
      if Ascii.eqb c ","
      then piece :: splitComma EmptyString rest
      else splitComma (piece ++ String c EmptyString) rest
  end.

(** [result.split(',')[1]]; [None] is [undefined]. *)
Definition base64Data (result : string) : option string :=
  nth_error (splitComma EmptyString result) 1.

End FileReading.

(** ** [components/RatingDisplay.tsx] *)

Module RatingDisplay.

(** [x] cut to its integer part, towards 0. *)
Definition truncate (x : Q) : Z := Z.quot (Qnum x) (Z.pos (Qden x)).

(** The length of [Array.from({ length: x })]: [x] cut to an integer,
    nothing below 0; [None] is the [RangeError] of an array of 2^32 elements
    or more. *)
Definition arrayLength (x : Q) : option nat :=
  let n := truncate x in
  if (n <=? 0)%Z then Some 0%nat
  else if (2 ^ 32 <=? n)%Z then None
  else Some (Z.to_nat n).

(** [x % 1]: what is left of [x] after its integer part, with the sign
    of [x]. *)
Definition remainder1 (x : Q) : Q := x - inject_Z (truncate x).

(** What the component renders: so many full stars, then a star filled to
    a width (a percentage) if there is a part left, then so many empty
    stars. *)
Record Stars : Type := mkStars {
  filled : nat;
  partialWidth : option Q;
  empty : nat
}.

Definition RatingDisplay (score maxScore : Q) : option Stars :=
  let filledStars := inject_Z (Qfloor score) in
  let partialStar := remainder1 score in
  let emptyStars := maxScore - inject_Z (Qceiling score) in
  match arrayLength filledStars, arrayLength emptyStars with
  | Some f, Some e =>
      Some (mkStars f
              (if Qlt_le_dec 0 partialStar then Some (partialStar * 100) else None)
              e)
  | _, _ => None
  end.

Definition defaultMaxScore : Q := 5.

(** The stars side by side, the children of the [div]: the partial star is
    one of them. *)
Definition starsShown (s : Stars) : nat :=
  (filled s + (match partialWidth s with Some _ => 1 | None => 0 end) + empty s)%nat.

(** The [StarIcon] elements: the partial star is drawn with two of them,
    an outline and over it a filled icon cut to the width. *)
Definition starIcons (s : Stars) : nat :=
  (filled s + (match partialWidth s with Some _ => 2 | None => 0 end) + empty s)%nat.

(** *** The revision without partial stars

    One icon per index below [maxScore], filled ([true]) when the score
    reaches the value of the star. *)

Definition starFilled (score : Q) (index : nat) : bool :=
  let starValue := inject_Z (Z.of_nat index) + 1 in
  Qle_bool starValue score.

Definition RatingDisplayWhole (score maxScore : Q) : option (list bool) :=
  match arrayLength maxScore with
  | Some n => Some (map (starFilled score) (seq 0 n))
  | None => None
  end.

End RatingDisplay.

(** ** [App.tsx], the revision with one file *)

Module AppSingle.
Import Js.

Section State.
Context {File Result : Type}.

Record State : Type := mkState {
  file : option File;
  result : option Result;
  isLoading : bool;
  error : option string
}.

Definition initial : State := mkState None None false None.

Definition handleFileSelect (selectedFile : File) (st : State) : State :=
  mkState (Some selectedFile) None (isLoading st) None.

(** The state while [analyzeAudio] is awaited. *)
Definition awaiting (st : State) : State :=
  mkState (file st) None true None.

(** [err instanceof Error ? err.message : "An unknown error occurred."] *)
Definition errorMessage (err : Thrown) : string :=
  match err with
  | AnError e => errMessage e
  | NotAnError _ => "An unknown error occurred."
  end.

(** [handleAnalyzeClick], to its end: [analyze f] is what
    [analyzeAudio(f)] comes to. *)
Definition handleAnalyzeClick (analyze : File -> Settled Result) (st : State) : State :=
  match file st with
  | None => mkState None (result st) (isLoading st)
              (Some "Please select an audio file first.")
  | Some f =>
      match analyze f with
      | Fulfilled analysisResult => mkState (Some f) (Some analysisResult) false None
      | Rejected err => mkState (Some f) None false (Some (errorMessage err))
      end
  end.

Definition handleReset (st : State) : State := mkState None None false None.

Inductive View : Type :=
| Analyzing
| ErrorBox (message : string)
| Report (r : Result)
| Upload (selected : option File).

(** [renderContent]: [if (error)] is false for [null] and for the empty
    string. *)
Definition renderContent (st : State) : View :=
  if isLoading st then Analyzing
  else if truthy (option_map Str (error st)) then
    ErrorBox (match error st with Some message => message | None => EmptyString end)
  else
    match result st with
    | Some r => Report r
    | None => Upload (file st)
    end.

End State.
Arguments State : clear implicits.
Arguments View : clear implicits.

End AppSingle.

(** ** [App.tsx], the revision with the two tabs *)

Module App.
Import Js.

Inductive AppState : Type := idle | loading | success | error.
Inductive ActiveTab : Type := analyze | compare.

Section State.
Context {File Result Comparison : Type}.

(** A value that is [null] is [None]; so is, for [comparisonResult], any
    other falsy value: the views only test it for truthiness. *)
Record State : Type := mkState {
  activeTab : ActiveTab;
  appState : AppState;
  errorText : option string;
  loadingMessage : string;
  analysisResult : option Result;
  oldFile : option File;
  newFile : option File;
  oldAnalysisResult : option Result;
  newAnalysisResult : option Result;
  comparisonResult : option Comparison
}.

Definition initial : State :=
  mkState analyze idle None "Analyzing... This may take a few moments."
          None None None None None None.

(** [err instanceof Error ? err.message : "An unknown error occurred."] *)
Definition errorMessage (err : Thrown) : string :=
  match err with
  | AnError e => errMessage e
  | NotAnError _ => "An unknown error occurred."
  end.

(** [handleSingleFile], to its end: [outcome] is what [analyzeAudio(file)]
    comes to. *)
Definition handleSingleFile (outcome : Settled Result) (st : State) : State :=
  let message := "Analyzing... This may take a few moments." in
  match outcome with
  | Fulfilled r =>
      mkState (activeTab st) success None message (Some r)
              (oldFile st) (newFile st) (oldAnalysisResult st) (newAnalysisResult st)
              (comparisonResult st)
  | Rejected err =>
      mkState (activeTab st) error (Some (errorMessage err)) message None
              (oldFile st) (newFile st) (oldAnalysisResult st) (newAnalysisResult st)
              (comparisonResult st)
  end.

(** [handleComparisonFiles], to its end: [analyzeOld] and [analyzeNew] are
    what the two calls of [analyzeAudio] come to, [report] what
    [generateComparisonReport] comes to.  The report is the parsed reply of
    the model, unchecked: [Fulfilled None] is a report that is [null] or
    another falsy value, which is stored as it is. *)
Definition handleComparisonFiles (analyzeOld analyzeNew : Settled Result)
  (report : Result -> Result -> Settled (option Comparison)) (st : State) : State :=
  match oldFile st, newFile st with
  | Some _, Some _ =>
      let failed message err oldResult newResult :=
        mkState (activeTab st) error (Some (errorMessage err)) message
                (analysisResult st) (oldFile st) (newFile st) oldResult newResult None in
      match analyzeOld with
      | Rejected err => failed "Analyzing older audio... (step 1 of 3)" err None None
      | Fulfilled oldResult =>
          match analyzeNew with
          | Rejected err =>
              failed "Analyzing newer audio... (step 2 of 3)" err (Some oldResult) None
          | Fulfilled newResult =>
              match report oldResult newResult with
              | Rejected err =>
                  failed "Comparing results... (step 3 of 3)" err
                         (Some oldResult) (Some newResult)
              | Fulfilled comparison =>
                  mkState (activeTab st) success None "Comparing results... (step 3 of 3)"
                          (analysisResult st) (oldFile st) (newFile st)
                          (Some oldResult) (Some newResult) comparison
              end
          end
      end
  | _, _ => st
  end.

Definition handleReset (st : State) : State :=
  mkState (activeTab st) idle None (loadingMessage st) None None None None None None.

(** The [onClick] of a tab button. *)
Definition selectTab (tab : ActiveTab) (st : State) : State :=
  let st' := handleReset st in
  mkState tab (appState st') (errorText st') (loadingMessage st') (analysisResult st')
          (oldFile st') (newFile st') (oldAnalysisResult st') (newAnalysisResult st')
          (comparisonResult st').

Definition isSome {A} (o : option A) : bool :=
  match o with Some _ => true | None => false end.

Inductive View : Type :=
| Spinner (message : string)
| ErrorBox (message : option string)
| ResultsCard (r : Result)
| ComparisonResultsCard (comparison : Comparison) (oldResult newResult : Result)
| SingleUpload
| PairUpload (older newer : option File) (compareDisabled : bool).

(** The views of the idle state, which [renderContent] also reaches when
    no other view applies. *)
Definition idleView (st : State) : View :=
  match activeTab st with
  | analyze => SingleUpload
  | compare =>
      PairUpload (oldFile st) (newFile st)
                 (negb (isSome (oldFile st)) || negb (isSome (newFile st)))
  end.

(** [renderContent]: the results of the analyses are objects whenever
    they are there, and [comparisonResult &&] holds for [Some]. *)
Definition renderContent (st : State) : View :=
  match appState st with
  | loading => Spinner (loadingMessage st)
  | error => ErrorBox (errorText st)
  | success =>
      match activeTab st, analysisResult st,
            comparisonResult st, oldAnalysisResult st, newAnalysisResult st with
      | analyze, Some r, _, _, _ => ResultsCard r
      | compare, _, Some c, Some o, Some n => ComparisonResultsCard c o n
      | _, _, _, _, _ => idleView st
      end
  | idle => idleView st
  end.

End State.
Arguments State : clear implicits.
Arguments View : clear implicits.

End App.

(** ** [components/ResultsCard.tsx]: the scores on the card

    The card prints [result.overallScore.toFixed(2)] and, for every
    dimension, [dimension.score.toFixed(1)]. *)

Module ResultsCardScores.
Import Types.




End ResultsCardScores.

(** * Vocabulary of the properties, and sample inputs *)

Import Js Types.
Local Open Scope list_scope.

(** [y] is [x] rounded to 2 decimal places: a whole number of hundredths,
    at most half a hundredth away from [x]. *)
Definition roundedTo2 (x y : Q) : Prop :=
  (exists n : Z, y == n # 100) /\ Qabs (y - x) <= 1 # 200.

(** The arithmetic mean of three numbers. *)
Definition mean3 (a b c : Q) : Q := (a + b + c) / 3.

(** The three runs of [service] pass the check of [performSingleAnalysis]
    with the results [r0], [r1], [r2]. *)
Definition validatedRuns (service : nat -> GeminiService.Reply)
  (r0 r1 r2 : AnalysisResult) : Prop :=
  exists v0 v1 v2,
    GeminiService.performSingleAnalysis (service 0%nat) = Fulfilled v0 /\
    GeminiService.performSingleAnalysis (service 1%nat) = Fulfilled v1 /\
    GeminiService.performSingleAnalysis (service 2%nat) = Fulfilled v2 /\
    GeminiService.asAnalysisResult v0 = Some r0 /\
    GeminiService.asAnalysisResult v1 = Some r1 /\
    GeminiService.asAnalysisResult v2 = Some r2.

Definition keySet (API_KEY : option string) : Prop :=
  truthy (option_map Str API_KEY) = true.


(** The five fields the response schema requires. *)
Definition requiredFields : list string :=
  ["overallScore"; "dimensionAnalysis"; "feedback"; "fillerWords"; "conversation"].

(** What the run with the dimensions [ds] contributes to the dimension
    named [n]: the score of its first dimension of that name, and 0 when it
    has none. *)
Definition contribution (n : string) (ds : list Dimension) (q : Q) : Prop :=
  (exists before d after,
      ds = before ++ d :: after /\ name d = n /\
      (forall d', In d' before -> name d' <> n) /\ q = score d)
  \/ ((forall d, In d ds -> name d <> n) /\ q = 0).

(** A reply of the model with every field of the schema. *)
Definition sampleReply (overall : Q) (dims : list (string * Q)) (advice : string) : Value :=
  Obj [("overallScore", Number overall);
       ("dimensionAnalysis",
         Arr (map (fun d => Obj [("name", Str (fst d)); ("score", Number (snd d))]) dims));
       ("feedback", Arr [Str advice]);
       ("fillerWords", Arr [Obj [("word", Str "um"); ("count", Number 2)]]);
       ("conversation",
         Arr [Obj [("speaker", Str "AI"); ("text", Str "How was your day?")];
              Obj [("speaker", Str "User"); ("text", Str advice);
                   ("mistakes",
                     Arr [Obj [("incorrectPhrase", Str "I seen");
                               ("correction", Str "I saw");
                               ("explanation", Str "past tense")]])]])].

(** Three runs with the overall scores 3, 4, 5 and Clarity 2, 3, 4. *)
Definition service345 (i : nat) : GeminiService.Reply :=
  match i with
  | 0%nat => GeminiService.Parsed (sampleReply 3 [("Clarity", 2)] "first")
  | 1%nat => GeminiService.Parsed (sampleReply 4 [("Clarity", 3)] "second")
  | _ => GeminiService.Parsed (sampleReply 5 [("Clarity", 4)] "third")
  end.

(** Three runs with the overall scores 1, 1, 2 and Clarity 1, 1, 2. *)
Definition service112 (i : nat) : GeminiService.Reply :=
  match i with
  | 0%nat => GeminiService.Parsed (sampleReply 1 [("Clarity", 1)] "first")
  | 1%nat => GeminiService.Parsed (sampleReply 1 [("Clarity", 1)] "second")
  | _ => GeminiService.Parsed (sampleReply 2 [("Clarity", 2)] "third")
  end.

(** The second call to the model is rejected. *)
Definition serviceSecondFails (i : nat) : GeminiService.Reply :=
  match i with
  | 1%nat => GeminiService.CallFails (AnError (mkError "Error" "503 Service Unavailable"))
  | _ => service345 i
  end.

(** The third reply has no [feedback]. *)
Definition replyWithoutFeedback : Value :=
  Obj [("overallScore", Number 4);
       ("dimensionAnalysis", Arr []);
       ("fillerWords", Arr []);
       ("conversation", Arr [])].

Definition serviceThirdIncomplete (i : nat) : GeminiService.Reply :=
  match i with
  | 2%nat => GeminiService.Parsed replyWithoutFeedback
  | _ => service345 i
  end.

(** A reply with every field, whose overall score is 0. *)
Definition zeroScoreReply : Value := sampleReply 0 [("Clarity", 0)] "Speak up.".

Definition roundedRun (overall clarity : Q) : GeminiServiceRounded.AnalysisResult :=
  GeminiServiceRounded.mkResult overall
    [GeminiServiceRounded.mkDimension "Clarity" clarity] [] [] [].

Definition roundedService112 (i : nat) : Settled GeminiServiceRounded.AnalysisResult :=
  match i with
  | 0%nat => Fulfilled (roundedRun 1 1)
  | 1%nat => Fulfilled (roundedRun 1 1)
  | _ => Fulfilled (roundedRun 2 2)
  end.




Definition sampleMistake (phrase : string) : Mistake :=
  mkMistake phrase "correction" "explanation".

(** [sampleReply] at the type [AnalysisResult]. *)
Definition sampleResult (overall : Q) (dims : list (string * Q)) (advice : string)
  : AnalysisResult :=
  mkResult overall (map (fun d => mkDimension (fst d) (snd d)) dims) [advice]
    [mkFiller "um" 2]
    [mkTurn AI "How was your day?" None;
     mkTurn User advice (Some [mkMistake "I seen" "I saw" "past tense"])].

(** Every score of [r] is within the range from 0 to 5. *)
Definition scoresInRange (r : AnalysisResult) : Prop :=
  (0 <= overallScore r /\ overallScore r <= 5) /\
  Forall (fun d => 0 <= score d /\ score d <= 5) (dimensionAnalysis r).

(** The second run lacks a field and settles first; the third call is
    rejected. *)
Definition serviceTwoFailures (i : nat) : GeminiService.Reply :=
  match i with
  | 1%nat => GeminiService.Parsed replyWithoutFeedback
  | 2%nat => GeminiService.CallFails (AnError (mkError "Error" "503 Service Unavailable"))
  | _ => service345 i
  end.

Definition hasComma (s : string) : bool :=
  existsb (Ascii.eqb ",") (list_ascii_of_string s).

(** The promise [analyzeAudio] returns, for an outcome of the typed
    program. *)
Definition asPromise (o : GeminiService.Outcome) : option (Settled AnalysisResult) :=
  match o with
  | GeminiService.Returns r => Some (Fulfilled r)
  | GeminiService.Throws t => Some (Rejected t)
  | GeminiService.Untyped => None
  end.





(** Every dimension score of [r] is within the range from 0 to 5. *)
Definition roundedScoresInRange (r : GeminiServiceRounded.AnalysisResult) : Prop :=
  Forall (fun d => 0 <= GeminiServiceRounded.score d /\ GeminiServiceRounded.score d <= 5)
         (GeminiServiceRounded.dimensions r).

(** ** In binary64 *)

Section Binary64Vocabulary.
Import Floats.PrimFloat Floats.FloatOps Floats.SpecFloat.

(** [(a + b + c) / 3] as the merge computes it: the sum is taken from 0 in
    the order of the runs, and each of the three sums and the quotient is
    rounded to the nearest binary64 number. *)
Definition mean64 (a b c : float) : float := (((0 + a) + b + c) / 3)%float.

(** The three runs of [service] pass the check of [performSingleAnalysis]
    with the results [r0], [r1], [r2]. *)
Definition validatedRuns64 (service : nat -> GeminiServiceBinary64.Reply)
  (r0 r1 r2 : GeminiServiceBinary64.AnalysisResult) : Prop :=
  exists v0 v1 v2,
    GeminiServiceBinary64.performSingleAnalysis (service 0%nat) = Fulfilled v0 /\
    GeminiServiceBinary64.performSingleAnalysis (service 1%nat) = Fulfilled v1 /\
    GeminiServiceBinary64.performSingleAnalysis (service 2%nat) = Fulfilled v2 /\
    GeminiServiceBinary64.asAnalysisResult v0 = Some r0 /\
    GeminiServiceBinary64.asAnalysisResult v1 = Some r1 /\
    GeminiServiceBinary64.asAnalysisResult v2 = Some r2.

(** What the run with the dimensions [ds] contributes to the dimension
    named [n]: the score of its first dimension of that name, and 0 when it
    has none. *)
Definition contribution64 (n : string) (ds : list GeminiServiceBinary64.Dimension)
  (x : float) : Prop :=
  (exists before d after,
      ds = before ++ d :: after /\ GeminiServiceBinary64.name d = n /\
      (forall d', In d' before -> GeminiServiceBinary64.name d' <> n) /\
      x = GeminiServiceBinary64.score d)
  \/ ((forall d, In d ds -> GeminiServiceBinary64.name d <> n) /\ x = 0%float).

(** The score of the merged dimension [merged] is [mean64] of what the
    three runs contribute to its name. *)
Definition mergedFrom64 (r0 r1 r2 : GeminiServiceBinary64.AnalysisResult)
  (merged : GeminiServiceBinary64.Dimension) : Prop :=
  exists c0 c1 c2,
    contribution64 (GeminiServiceBinary64.name merged)
      (GeminiServiceBinary64.dimensionAnalysis r0) c0 /\
    contribution64 (GeminiServiceBinary64.name merged)
      (GeminiServiceBinary64.dimensionAnalysis r1) c1 /\
    contribution64 (GeminiServiceBinary64.name merged)
      (GeminiServiceBinary64.dimensionAnalysis r2) c2 /\
    GeminiServiceBinary64.score merged = mean64 c0 c1 c2.

(** A reply of the model with every field of the schema. *)
Definition sampleReply64 (overall clarity : float) : JsBinary64.Value :=
  JsBinary64.Obj
    [("overallScore", JsBinary64.Number overall);
     ("dimensionAnalysis",
       JsBinary64.Arr [JsBinary64.Obj [("name", JsBinary64.Str "Clarity");
                                       ("score", JsBinary64.Number clarity)]]);
     ("feedback", JsBinary64.Arr [JsBinary64.Str "Slow down."]);
     ("fillerWords",
       JsBinary64.Arr [JsBinary64.Obj [("word", JsBinary64.Str "um");
                                       ("count", JsBinary64.Number 2)]]);
     ("conversation",
       JsBinary64.Arr [JsBinary64.Obj [("speaker", JsBinary64.Str "AI");
                                       ("text", JsBinary64.Str "How was your day?")]])].

(** Three runs that all give the overall score 3.7 and Clarity 3.3. *)
Definition serviceSameScores64 (i : nat) : GeminiServiceBinary64.Reply :=
  GeminiServiceBinary64.Parsed (sampleReply64 3.7 3.3).

(** Three runs with the overall scores 1, 1, 2 and Clarity 1, 1, 2. *)
Definition service112in64 (i : nat) : GeminiServiceBinary64.Reply :=
  match i with
  | 0%nat => GeminiServiceBinary64.Parsed (sampleReply64 1 1)
  | 1%nat => GeminiServiceBinary64.Parsed (sampleReply64 1 1)
  | _ => GeminiServiceBinary64.Parsed (sampleReply64 2 2)
  end.

(** The rational number that a finite binary64 number is; [None] for
    [NaN] and the two infinities. *)
Definition exact64 (x : float) : option Q :=
  match Prim2SF x with
  | S754_zero _ => Some 0
  | S754_finite negative mantissa exponent =>
      let magnitude := inject_Z (Z.pos mantissa) * 2 ^ exponent in
      Some (if negative then - magnitude else magnitude)
  | _ => None
  end.

(** The number that [JSON.parse] reads from the decimal text of [k / 10],
    as 3.7 for 37: the binary64 number nearest to it. *)
Definition tenths (k : nat) : float :=
  (of_uint63 (Uint63.of_Z (Z.of_nat k)) / 10)%float.

(** [mean64] of three such numbers is within 2 * 10^-15 of the mean of the
    decimals. *)
Definition meanOfTenthsIsNear (k0 k1 k2 : nat) : bool :=
  match exact64 (mean64 (tenths k0) (tenths k1) (tenths k2)) with
  | Some q => Qle_bool (Qabs (q - (Z.of_nat (k0 + k1 + k2) # 30))) (2 # 10 ^ 15)
  | None => false
  end.

End Binary64Vocabulary.

(** * Properties *)

(** ** Promises *)

Section PromiseAll.
Import Js.
Context {A : Type}.

Lemma firstRejection_app (ps : list (Settled A)) (o1 o2 : list nat) :
  firstRejection ps (o1 ++ o2) =
  match firstRejection ps o1 with
  | Some t => Some t
  | None => firstRejection ps o2
  end.
Proof.
  induction o1 as [|i o1 IH]; simpl; [reflexivity|].
  destruct (rejection (nth_error ps i)); [reflexivity|exact IH].
Qed.

Lemma firstRejection_In (ps : list (Settled A)) (order : list nat) (t : Thrown) :
  firstRejection ps order = Some t -> In (Rejected t) ps.
Proof.
  induction order as [|i order IH]; simpl; [discriminate|].
  destruct (nth_error ps i) as [[a|t']|] eqn:E; simpl; auto.
  intros [= <-]. eapply nth_error_In; eassumption.
Qed.

Lemma firstRejection_hit (ps : list (Settled A)) (order : list nat) (i : nat) (t : Thrown) :
  In i order -> nth_error ps i = Some (Rejected t) ->
  exists t', firstRejection ps order = Some t'.
Proof.
  induction order as [|j order IH]; simpl; [contradiction|].
  intros [->|Hin] Hnth.
  - rewrite Hnth. simpl. eauto.
  - destruct (rejection (nth_error ps j)); eauto.
Qed.

(** A rejected promise makes [Promise.all] reject, with the reason of one of
    the rejected promises. *)
Lemma Promise_all_rejects (order : list nat) (ps : list (Settled A)) (i : nat) (t : Thrown) :
  nth_error ps i = Some (Rejected t) ->
  exists t', Promise_all order ps = Rejected t' /\ In (Rejected t') ps.
Proof.
  intros Hnth. unfold Promise_all.
  destruct (firstRejection ps (order ++ seq 0 (List.length ps))) as [t'|] eqn:E.
  - exists t'. split; [reflexivity|]. eapply firstRejection_In; eassumption.
  - exfalso. rewrite firstRejection_app in E.
    destruct (firstRejection ps order); [discriminate|].
    destruct (firstRejection_hit ps (seq 0 (List.length ps)) i t) as [t' Ht']; auto.
    + apply in_seq. split; [lia|]. simpl. apply nth_error_Some. congruence.
    + congruence.
Qed.

Lemma values_map_Fulfilled (vs : list A) : values (map Fulfilled vs) = vs.
Proof. induction vs; simpl; congruence. Qed.

Lemma firstRejection_none (vs : list A) (order : list nat) :
  firstRejection (map Fulfilled vs) order = None.
Proof.
  induction order as [|i order IH]; simpl; [reflexivity|].
  rewrite nth_error_map. destruct (nth_error vs i); simpl; exact IH.
Qed.

(** When every promise is fulfilled, so is [Promise.all], with the values
    in the order of the promises, whatever the order of settlement. *)
Lemma Promise_all_fulfilled (order : list nat) (vs : list A) :
  Promise_all order (map Fulfilled vs) = Fulfilled vs.
Proof.
  unfold Promise_all. rewrite firstRejection_none, values_map_Fulfilled. reflexivity.
Qed.

Lemma Promise_all_Fulfilled_inv (order : list nat) (ps : list (Settled A)) (vs : list A) :
  Promise_all order ps = Fulfilled vs -> ps = map Fulfilled vs.
Proof.
  unfold Promise_all.
  destruct (firstRejection _ _) eqn:E; [discriminate|]. intros [= <-].
  rewrite firstRejection_app in E.
  destruct (firstRejection ps order); [discriminate|].
  assert (H : forall i t, nth_error ps i <> Some (Rejected t)).
  { intros i t Hnth.
    destruct (firstRejection_hit ps (seq 0 (List.length ps)) i t) as [t' Ht']; auto.
    - apply in_seq. split; [lia|]. simpl. apply nth_error_Some. congruence.
    - congruence. }
  clear E. induction ps as [|[a|t] ps IH]; simpl.
  - reflexivity.
  - f_equal. apply IH. intros i t. apply (H (S i) t).
  - exfalso. apply (H 0%nat t). reflexivity.
Qed.

End PromiseAll.

(** ** The aggregator *)

Lemma analyzeAudio_returns API_KEY service order r0 r1 r2 :
  keySet API_KEY -> validatedRuns service r0 r1 r2 ->
  GeminiService.analyzeAudio API_KEY service order
  = GeminiService.Returns (GeminiService.mergeResults r0 [r0; r1; r2]).
Proof.
  intros Hkey (v0 & v1 & v2 & H0 & H1 & H2 & D0 & D1 & D2).
  unfold GeminiService.analyzeAudio. rewrite Hkey. simpl.
  rewrite H0, H1, H2.
  change [Fulfilled v0; Fulfilled v1; Fulfilled v2] with (map Fulfilled [v0; v1; v2]).
  rewrite Promise_all_fulfilled. simpl. rewrite D0, D1, D2. reflexivity.
Qed.

Lemma analyzeAudio_Returns_inv API_KEY service order r :
  GeminiService.analyzeAudio API_KEY service order = GeminiService.Returns r ->
  keySet API_KEY /\
  exists r0 r1 r2,
    validatedRuns service r0 r1 r2 /\ r = GeminiService.mergeResults r0 [r0; r1; r2].
Proof.
  unfold GeminiService.analyzeAudio, keySet.
  destruct (truthy (option_map Str API_KEY)); simpl; [|discriminate].
  destruct (Promise_all _ _) as [vs|t] eqn:E; [|discriminate].
  apply Promise_all_Fulfilled_inv in E.
  destruct vs as [|v0 [|v1 [|v2 [|]]]]; try discriminate E.
  injection E as E0 E1 E2. simpl.
  destruct (GeminiService.asAnalysisResult v0) as [r0|] eqn:D0; [|discriminate].
  destruct (GeminiService.asAnalysisResult v1) as [r1|] eqn:D1; [|discriminate].
  destruct (GeminiService.asAnalysisResult v2) as [r2|] eqn:D2; [|discriminate].
  intros [= <-]. split; [reflexivity|].
  exists r0, r1, r2. split; [|reflexivity].
  exists v0, v1, v2. auto 10.
Qed.

(** A run that fails makes [analyzeAudio] throw, and what it throws is an
    [Error]. *)
Lemma analyzeAudio_throws API_KEY service order i t :
  (i < 3)%nat ->
  GeminiService.performSingleAnalysis (service i) = Rejected t ->
  exists e, GeminiService.analyzeAudio API_KEY service order
            = GeminiService.Throws (AnError e).
Proof.
  intros Hi Hrun. unfold GeminiService.analyzeAudio.
  destruct (truthy (option_map Str API_KEY)); simpl; [|eauto].
  set (ps := [_; _; _]).
  assert (Hnth : nth_error ps i = Some (Rejected t)).
  { subst ps. destruct i as [|[|[|i]]]; simpl; try (f_equal; assumption); lia. }
  destruct (Promise_all_rejects order ps i t Hnth) as (t' & -> & _).
  destruct t'; simpl; eauto.
Qed.

(** *** The revision that rounds *)

Lemma toFixed2_roundedTo2 (x : Q) :
  Qabs x < inject_Z (10 ^ 21) -> roundedTo2 x (GeminiServiceRounded.toFixed2 x).
Proof.
  intros Hsmall. unfold GeminiServiceRounded.toFixed2.
  destruct (Qle_bool (inject_Z (10 ^ 21)) (Qabs x)) eqn:Hbig.
  { apply Qle_bool_iff in Hbig. exfalso. apply (Qlt_not_le _ _ Hsmall Hbig). }
  set (n := Qfloor (Qabs x * 100 + (1 # 2))).
  assert (Hlo : inject_Z n <= Qabs x * 100 + (1 # 2)) by apply Qfloor_le.
  assert (Hhi : Qabs x * 100 + (1 # 2) < inject_Z (n + 1)) by apply Qlt_floor.
  rewrite inject_Z_plus in Hhi.
  assert (Hn : inject_Z n / 100 == n # 100).
  { unfold Qeq, Qdiv, Qmult, Qinv, inject_Z. simpl. lia. }
  destruct (Qle_bool 0 x) eqn:Hsign.
  - apply Qle_bool_iff in Hsign. rewrite (Qabs_pos x Hsign) in Hlo, Hhi.
    split.
    + exists n. exact Hn.
    + apply Qabs_Qle_condition. split.
      * apply Qplus_le_l with (z := x + (1 # 200)). 
        setoid_replace (inject_Z n / 100 - x + (x + (1 # 200))) with ((inject_Z n + (1 # 2)) / 100) by field.
        setoid_replace (- (1 # 200) + (x + (1 # 200))) with ((x * 100) / 100) by field.
        apply Qmult_le_r; [reflexivity|]. 
        change (inject_Z 1) with 1 in Hhi. lra.
      * apply Qplus_le_l with (z := x).
        setoid_replace (inject_Z n / 100 - x + x) with (inject_Z n / 100) by field.
        setoid_replace ((1 # 200) + x) with ((x * 100 + (1 # 2)) / 100) by field.
        apply Qmult_le_r; [reflexivity|]. exact Hlo.
  - assert (Hneg : x < 0).
    { apply Qnot_le_lt. intro H. apply Qle_bool_iff in H. congruence. }
    assert (Habs : Qabs x == - x) by (apply Qabs_neg; lra).
    rewrite Habs in Hlo, Hhi.
    split.
    + exists (- n)%Z. rewrite Hn. unfold Qeq, Qopp. simpl. lia.
    + apply Qabs_Qle_condition. split.
      * apply Qplus_le_l with (z := inject_Z n / 100 + (1 # 200)).
        setoid_replace (- (1 # 200) + (inject_Z n / 100 + (1 # 200))) with (inject_Z n / 100) by field.
        setoid_replace (- (inject_Z n / 100) - x + (inject_Z n / 100 + (1 # 200)))
          with ((- x * 100 + (1 # 2)) / 100) by field.
        apply Qmult_le_r; [reflexivity|]. exact Hlo.
      * apply Qplus_le_l with (z := inject_Z n / 100 + x).
        setoid_replace (- (inject_Z n / 100) - x + (inject_Z n / 100 + x)) with ((0 * 100) / 100) by field.
        setoid_replace ((1 # 200) + (inject_Z n / 100 + x))
          with ((inject_Z n + (1 # 2) + x * 100) / 100) by field.
        apply Qmult_le_r; [reflexivity|].
        change (inject_Z 1) with 1 in Hhi. lra.
Qed.

Lemma totalAt_Some (results : list GeminiServiceRounded.AnalysisResult) (index : nat) :
  Forall (fun r => (index < List.length (GeminiServiceRounded.dimensions r))%nat) results ->
  exists total, GeminiServiceRounded.totalAt results index = Some total.
Proof.
  unfold GeminiServiceRounded.totalAt. generalize 0.
  induction results as [|r results IH]; intros acc Hall; simpl.
  - eauto.
  - inversion Hall as [|? ? Hr Hrest]; subst.
    destruct (nth_error (GeminiServiceRounded.dimensions r) index) as [d|] eqn:E.
    + apply IH. exact Hrest.
    + apply nth_error_None in E. lia.
Qed.

Lemma averageDimensions_Some (results : list GeminiServiceRounded.AnalysisResult)
  (dims : list GeminiServiceRounded.Dimension) (index : nat) :
  Forall (fun r => (index + List.length dims
                    <= List.length (GeminiServiceRounded.dimensions r))%nat) results ->
  exists dims', GeminiServiceRounded.averageDimensions results index dims = Some dims'.
Proof.
  revert index. induction dims as [|dim dims IH]; intros index Hall; simpl.
  - eauto.
  - destruct (totalAt_Some results index) as [total ->].
    { eapply Forall_impl; [|exact Hall]. simpl. intros; lia. }
    destruct (IH (S index)) as [dims' ->]; eauto.
    eapply Forall_impl; [|exact Hall]. simpl. intros; lia.
Qed.




Lemma totalOverallScore_3 (r0 r1 r2 : AnalysisResult) :
  GeminiService.totalOverallScore [r0; r1; r2] / inject_Z (Z.of_nat GeminiService.analysisRuns)
  == mean3 (overallScore r0) (overallScore r1) (overallScore r2).
Proof.
  unfold GeminiService.totalOverallScore, mean3. simpl.
  change (inject_Z 3) with 3. field.
Qed.

(** *** Sample runs *)

Lemma service345_validated :
  exists r0 r1 r2, validatedRuns service345 r0 r1 r2.
Proof.
  do 3 eexists. unfold validatedRuns. do 3 eexists.
  repeat split; vm_compute; reflexivity.
Qed.


(** *** The merge in binary64 *)

Section Binary64Aggregator.
Import Floats.PrimFloat.

Lemma binary64_analyzeAudio_returns API_KEY service order r0 r1 r2 :
  keySet API_KEY -> validatedRuns64 service r0 r1 r2 ->
  GeminiServiceBinary64.analyzeAudio API_KEY service order
  = GeminiServiceBinary64.Returns (GeminiServiceBinary64.mergeResults r0 [r0; r1; r2]).
Proof.
  intros Hkey (v0 & v1 & v2 & H0 & H1 & H2 & D0 & D1 & D2).
  unfold GeminiServiceBinary64.analyzeAudio. rewrite Hkey. simpl.
  rewrite H0, H1, H2.
  change [Fulfilled v0; Fulfilled v1; Fulfilled v2] with (map Fulfilled [v0; v1; v2]).
  rewrite Promise_all_fulfilled. simpl. rewrite D0, D1, D2. reflexivity.
Qed.

Lemma findDimension_contribution64 (n : string) (ds : list GeminiServiceBinary64.Dimension) :
  contribution64 n ds
    (match GeminiServiceBinary64.findDimension n ds with
     | Some d => GeminiServiceBinary64.score d
     | None => 0%float
     end).
Proof.
  unfold GeminiServiceBinary64.findDimension.
  induction ds as [|d ds IH]; simpl.
  - right. split; [intros d []|reflexivity].
  - destruct (String.eqb (GeminiServiceBinary64.name d) n) eqn:E.
    + apply String.eqb_eq in E. left. exists [], d, ds. simpl.
      repeat split; auto.
    + apply String.eqb_neq in E.
      destruct IH as [(before & d0 & after & -> & Hn & Hb & Hq)|[Hno Hq]].
      * left. exists (d :: before), d0, after. simpl. repeat split; auto.
        intros d' [<-|Hin]; auto.
      * right. split; [|exact Hq]. intros d' [<-|Hin]; auto.
Qed.

Lemma service112in64_validated :
  exists r0 r1 r2, validatedRuns64 service112in64 r0 r1 r2.
Proof.
  do 3 eexists. unfold validatedRuns64. do 3 eexists.
  repeat split; vm_compute; reflexivity.
Qed.

(** In binary64 the scores 1, 1, 2 merge to 1.3333333333333333, which
    [parseFloat(x.toFixed(2))] would have made 1.33. *)
Example binary64_analyzeAudio_112 :
  exists r clarity,
    GeminiServiceBinary64.analyzeAudio (Some "secret"%string) service112in64 []
    = GeminiServiceBinary64.Returns r /\
    GeminiServiceBinary64.overallScore r = 1.3333333333333333%float /\
    GeminiServiceBinary64.overallScore r <> 1.33%float /\
    GeminiServiceBinary64.dimensionAnalysis r = [clarity] /\
    GeminiServiceBinary64.name clarity = "Clarity"%string /\
    GeminiServiceBinary64.score clarity = 1.3333333333333333%float.
Proof.
  do 2 eexists. split; [vm_compute; reflexivity|]. split; [reflexivity|].
  split; [vm_compute; intros H; discriminate H|]. repeat split; reflexivity.
Qed.

End Binary64Aggregator.

(** *** C1 *)




(** *** C2 *)

Lemma findDimension_contribution (n : string) (ds : list Dimension) :
  contribution n ds
    (match GeminiService.findDimension n ds with
     | Some d => score d
     | None => 0
     end).
Proof.
  unfold GeminiService.findDimension.
  induction ds as [|d ds IH]; simpl.
  - right. split; [intros d []|reflexivity].
  - destruct (String.eqb (name d) n) eqn:E.
    + apply String.eqb_eq in E. left. exists [], d, ds. simpl.
      repeat split; auto.
    + apply String.eqb_neq in E. destruct IH as [(before & d0 & after & -> & Hn & Hb & Hq)|[Hno Hq]].
      * left. exists (d :: before), d0, after. simpl. repeat split; auto.
        intros d' [<-|Hin]; auto.
      * right. split; [|exact Hq]. intros d' [<-|Hin]; auto.
Qed.

Lemma totalDimScore_3 (r0 r1 r2 : AnalysisResult) (dimension : Dimension) :
  exists c0 c1 c2,
    contribution (name dimension) (dimensionAnalysis r0) c0 /\
    contribution (name dimension) (dimensionAnalysis r1) c1 /\
    contribution (name dimension) (dimensionAnalysis r2) c2 /\
    GeminiService.totalDimScore [r0; r1; r2] dimension
      / inject_Z (Z.of_nat GeminiService.analysisRuns)
    == mean3 c0 c1 c2.
Proof.
  pose proof (findDimension_contribution (name dimension) (dimensionAnalysis r0)) as H0.
  pose proof (findDimension_contribution (name dimension) (dimensionAnalysis r1)) as H1.
  pose proof (findDimension_contribution (name dimension) (dimensionAnalysis r2)) as H2.
  revert H0 H1 H2. unfold GeminiService.totalDimScore. simpl.
  generalize (match GeminiService.findDimension (name dimension) (dimensionAnalysis r0) with
              | Some d => score d | None => 0 end).
  generalize (match GeminiService.findDimension (name dimension) (dimensionAnalysis r1) with
              | Some d => score d | None => 0 end).
  generalize (match GeminiService.findDimension (name dimension) (dimensionAnalysis r2) with
              | Some d => score d | None => 0 end).
  intros c2 c1 c0 H0 H1 H2. exists c0, c1, c2. repeat split; auto.
  unfold mean3. change (inject_Z 3) with 3. field.
Qed.

(** C2, as stated, fails: with Clarity scored 1, 1, 2 the merged Clarity
    score is 4/3, the mean without any rounding to 2 decimals. *)
Lemma C2_counterexample :
  exists r,
    GeminiService.analyzeAudio (Some "secret"%string) service112 [] = GeminiService.Returns r /\
    exists merged,
      dimensionAnalysis r = [merged] /\ name merged = "Clarity"%string /\
      score merged == 4 # 3 /\
      ~ roundedTo2 (mean3 1 1 2) (score merged).
Proof.
  eexists. split; [vm_compute; reflexivity|].
  eexists. split; [reflexivity|]. split; [reflexivity|]. split; [reflexivity|].
  intros [[n Hn] _]. unfold Qeq in Hn. simpl in Hn. lia.
Qed.

(** C2, amended: when the three runs pass validation, the merged result
    has exactly the dimension names of the first run, in the first run's
    order, and each merged score is the sum over the three runs of the score
    of the run's first dimension of that name, 0 when the run has none,
    divided by 3, as the code computes it on binary64 numbers (the sum taken
    from 0 in the order of the runs), without rounding to decimals. *)
Theorem C2_dimension_scores_are_binary64_means API_KEY service order r0 r1 r2 :
  keySet API_KEY ->
  validatedRuns64 service r0 r1 r2 ->
  exists r,
    GeminiServiceBinary64.analyzeAudio API_KEY service order = GeminiServiceBinary64.Returns r /\
    map GeminiServiceBinary64.name (GeminiServiceBinary64.dimensionAnalysis r)
    = map GeminiServiceBinary64.name (GeminiServiceBinary64.dimensionAnalysis r0) /\
    Forall (mergedFrom64 r0 r1 r2) (GeminiServiceBinary64.dimensionAnalysis r).
Proof.
  intros Hkey Hv. eexists. split; [apply binary64_analyzeAudio_returns; eassumption|].
  simpl. unfold GeminiServiceBinary64.averagedDimensions. split.
  - rewrite map_map. simpl. reflexivity.
  - apply Forall_forall. intros merged Hin.
    apply in_map_iff in Hin. destruct Hin as (dimension & <- & _).
    unfold mergedFrom64. simpl.
    do 3 eexists. split; [apply findDimension_contribution64|].
    split; [apply findDimension_contribution64|].
    split; [apply findDimension_contribution64|]. reflexivity.
Qed.

Lemma C2_witness :
  exists r0 r1 r2,
    validatedRuns64 service112in64 r0 r1 r2 /\
    exists r,
      GeminiServiceBinary64.analyzeAudio (Some "secret"%string) service112in64 [1; 2; 0]%nat
      = GeminiServiceBinary64.Returns r /\
      map GeminiServiceBinary64.name (GeminiServiceBinary64.dimensionAnalysis r)
      = map GeminiServiceBinary64.name (GeminiServiceBinary64.dimensionAnalysis r0) /\
      Forall (mergedFrom64 r0 r1 r2) (GeminiServiceBinary64.dimensionAnalysis r).
Proof.
  destruct service112in64_validated as (r0 & r1 & r2 & Hv).
  exists r0, r1, r2. split; [exact Hv|].
  apply (C2_dimension_scores_are_binary64_means (Some "secret"%string) service112in64
           [1; 2; 0]%nat r0 r1 r2).
  - reflexivity.
  - exact Hv.
Defined.

(** *** C3 *)

(** C3: whenever [analyzeAudio] returns a result, the three runs passed
    validation and the feedback, the filler words and the conversation of
    the result are those of the first run. *)
Theorem C3_qualitative_fields_from_first_run API_KEY service order r :
  GeminiService.analyzeAudio API_KEY service order = GeminiService.Returns r ->
  exists r0 r1 r2,
    validatedRuns service r0 r1 r2 /\
    feedback r = feedback r0 /\
    fillerWords r = fillerWords r0 /\
    conversation r = conversation r0.
Proof.
  intros H. apply analyzeAudio_Returns_inv in H.
  destruct H as (_ & r0 & r1 & r2 & Hv & ->).
  exists r0, r1, r2. simpl. auto.
Qed.

Lemma C3_witness :
  exists r r0 r1 r2,
    GeminiService.analyzeAudio (Some "secret"%string) service345 [] = GeminiService.Returns r /\
    validatedRuns service345 r0 r1 r2 /\
    feedback r = ["first"%string] /\
    feedback r = feedback r0 /\
    fillerWords r = fillerWords r0 /\
    conversation r = conversation r0.
Proof.
  eexists.
  assert (H : GeminiService.analyzeAudio (Some "secret"%string) service345 []
              = GeminiService.Returns _) by (vm_compute; reflexivity).
  destruct (C3_qualitative_fields_from_first_run _ _ _ _ H) as (r0 & r1 & r2 & Hv & Hf & Hw & Hc).
  exists r0, r1, r2. split; [exact H|]. split; [exact Hv|].
  split; [reflexivity|]. auto.
Defined.

(** *** C4 *)

(** C4: when one of the three runs fails, [analyzeAudio] throws an
    [Error] and returns no result, whatever the other runs do and in
    whatever order the runs settle. *)
Theorem C4_failed_run_fails_aggregation API_KEY service order i t :
  (i < 3)%nat ->
  GeminiService.performSingleAnalysis (service i) = Rejected t ->
  (exists e, GeminiService.analyzeAudio API_KEY service order
             = GeminiService.Throws (AnError e)) /\
  (forall r, GeminiService.analyzeAudio API_KEY service order <> GeminiService.Returns r) /\
  GeminiService.analyzeAudio API_KEY service order <> GeminiService.Untyped.
Proof.
  intros Hi Hrun.
  destruct (analyzeAudio_throws API_KEY service order i t Hi Hrun) as [e He].
  rewrite He. split; [eauto|]. split; [intros r|]; discriminate.
Qed.

Lemma C4_witness :
  (1 < 3)%nat /\
  GeminiService.performSingleAnalysis (serviceSecondFails 1%nat)
  = Rejected (AnError (mkError "Error" "503 Service Unavailable")) /\
  (exists e, GeminiService.analyzeAudio (Some "secret"%string) serviceSecondFails [0; 2; 1]%nat
             = GeminiService.Throws (AnError e)) /\
  (forall r, GeminiService.analyzeAudio (Some "secret"%string) serviceSecondFails [0; 2; 1]%nat
             <> GeminiService.Returns r) /\
  GeminiService.analyzeAudio (Some "secret"%string) serviceSecondFails [0; 2; 1]%nat
  <> GeminiService.Untyped.
Proof.
  split; [lia|]. split; [reflexivity|].
  apply (C4_failed_run_fails_aggregation (Some "secret"%string) serviceSecondFails
           [0; 2; 1]%nat 1%nat (AnError (mkError "Error" "503 Service Unavailable"))).
  - lia.
  - reflexivity.
Defined.

(** *** C5 *)

Lemma missingRequired_missing (result : Value) (field : string) :
  In field requiredFields -> get field result = None ->
  GeminiService.missingRequired result = true.
Proof.
  unfold requiredFields, GeminiService.missingRequired.
  intros [<-|[<-|[<-|[<-|[<-|[]]]]]] ->; simpl;
    repeat (rewrite ?orb_true_r, ?orb_true_l); reflexivity.
Qed.

Lemma performSingleAnalysis_missing (result : Value) :
  result <> Null -> GeminiService.missingRequired result = true ->
  GeminiService.performSingleAnalysis (GeminiService.Parsed result)
  = Rejected (AnError GeminiService.missingFieldsError).
Proof.
  intros Hnull Hmiss.
  destruct result; try congruence;
    unfold GeminiService.performSingleAnalysis; rewrite Hmiss; reflexivity.
Qed.

(** C5, as stated, fails for the reply [null]: it has none of the five
    fields, and the run does not raise the error for missing fields but the
    [TypeError] of reading a property of [null]. *)
Lemma C5_counterexample :
  (forall field, In field requiredFields -> get field Null = None) /\
  GeminiService.performSingleAnalysis (GeminiService.Parsed Null)
  = Rejected (AnError GeminiService.nullPropertyError) /\
  errName GeminiService.nullPropertyError = "TypeError"%string /\
  AnError GeminiService.nullPropertyError <> AnError GeminiService.missingFieldsError.
Proof.
  split; [intros field _; reflexivity|]. split; [reflexivity|].
  split; [reflexivity|discriminate].
Qed.

(** C5, amended: a run whose parsed response lacks one of the five required
    fields is rejected, with the error for missing fields when the response
    is not [null] and with a [TypeError] when it is; hence [analyzeAudio]
    throws an [Error] and merges nothing. *)
Theorem C5_missing_field_fails_run_and_aggregation
  API_KEY service order i result field :
  (i < 3)%nat ->
  service i = GeminiService.Parsed result ->
  In field requiredFields ->
  get field result = None ->
  GeminiService.performSingleAnalysis (service i)
  = Rejected (AnError match result with
                      | Null => GeminiService.nullPropertyError
                      | _ => GeminiService.missingFieldsError
                      end) /\
  (exists e, GeminiService.analyzeAudio API_KEY service order
             = GeminiService.Throws (AnError e)) /\
  (forall r, GeminiService.analyzeAudio API_KEY service order <> GeminiService.Returns r) /\
  GeminiService.analyzeAudio API_KEY service order <> GeminiService.Untyped.
Proof.
  intros Hi Hs Hin Hget.
  assert (Hrun : GeminiService.performSingleAnalysis (service i)
                 = Rejected (AnError match result with
                                     | Null => GeminiService.nullPropertyError
                                     | _ => GeminiService.missingFieldsError
                                     end)).
  { rewrite Hs. pose proof (missingRequired_missing result field Hin Hget) as Hmiss.
    destruct result; try reflexivity;
      unfold GeminiService.performSingleAnalysis; rewrite Hmiss; reflexivity. }
  split; [exact Hrun|].
  destruct (analyzeAudio_throws API_KEY service order i _ Hi Hrun) as [e He].
  rewrite He. split; [eauto|]. split; [intros r|]; discriminate.
Qed.

Lemma C5_witness :
  (GeminiService.performSingleAnalysis (serviceThirdIncomplete 2%nat)
   = Rejected (AnError GeminiService.missingFieldsError) /\
   (exists e, GeminiService.analyzeAudio (Some "secret"%string) serviceThirdIncomplete []
              = GeminiService.Throws (AnError e)) /\
   (forall r, GeminiService.analyzeAudio (Some "secret"%string) serviceThirdIncomplete []
              <> GeminiService.Returns r) /\
   GeminiService.analyzeAudio (Some "secret"%string) serviceThirdIncomplete []
   <> GeminiService.Untyped) /\
  (GeminiService.performSingleAnalysis (GeminiService.Parsed Null)
   = Rejected (AnError GeminiService.nullPropertyError) /\
   (exists e, GeminiService.analyzeAudio (Some "secret"%string)
                (fun _ => GeminiService.Parsed Null) []
              = GeminiService.Throws (AnError e)) /\
   (forall r, GeminiService.analyzeAudio (Some "secret"%string)
                (fun _ => GeminiService.Parsed Null) []
              <> GeminiService.Returns r) /\
   GeminiService.analyzeAudio (Some "secret"%string) (fun _ => GeminiService.Parsed Null) []
   <> GeminiService.Untyped).
Proof.
  split.
  - apply (C5_missing_field_fails_run_and_aggregation (Some "secret"%string)
             serviceThirdIncomplete [] 2%nat replyWithoutFeedback "feedback"%string).
    + lia.
    + reflexivity.
    + simpl. auto.
    + reflexivity.
  - apply (C5_missing_field_fails_run_and_aggregation (Some "secret"%string)
             (fun _ => GeminiService.Parsed Null) [] 0%nat Null "overallScore"%string).
    + lia.
    + reflexivity.
    + simpl. auto.
    + reflexivity.
Defined.

(** *** C10 *)

(** The check of [performSingleAnalysis] is a test of truthiness: a parsed
    value other than [null] passes it exactly when each of the five fields
    is truthy. *)
Lemma performSingleAnalysis_truthiness (result : Value) :
  result <> Null ->
  GeminiService.performSingleAnalysis (GeminiService.Parsed result)
  = if forallb (fun field => truthy (get field result)) requiredFields
    then Fulfilled result
    else Rejected (AnError GeminiService.missingFieldsError).
Proof.
  intros Hnull.
  assert (E : GeminiService.missingRequired result
              = negb (forallb (fun field => truthy (get field result)) requiredFields)).
  { unfold GeminiService.missingRequired, requiredFields. simpl.
    rewrite andb_true_r. rewrite !negb_andb, !orb_assoc. reflexivity. }
  destruct result; try congruence;
    unfold GeminiService.performSingleAnalysis; rewrite E;
    destruct (forallb _ _); reflexivity.
Qed.

(** A run whose overall score is the number 0 is rejected, whatever else
    the reply holds. *)
Lemma zero_score_rejected (fields : list (string * Value)) (q : Q) :
  lookup "overallScore" fields = Some (Number q) -> q == 0 ->
  GeminiService.performSingleAnalysis (GeminiService.Parsed (Obj fields))
  = Rejected (AnError GeminiService.missingFieldsError).
Proof.
  intros Hget Hq. rewrite performSingleAnalysis_truthiness by discriminate.
  unfold requiredFields. simpl. rewrite Hget. simpl.
  apply Qeq_bool_iff in Hq. rewrite Hq. reflexivity.
Qed.

Lemma Promise_all_same_rejection {A} (order : list nat) (t : Thrown) (n : nat) :
  Promise_all order (repeat (@Rejected A t) (S n)) = Rejected t.
Proof.
  destruct (Promise_all_rejects order (repeat (@Rejected A t) (S n)) 0 t eq_refl)
    as (t' & -> & Hin).
  apply repeat_spec in Hin. congruence.
Qed.

(** C10: there is a parsed response that has each of the five required
    fields and is an [AnalysisResult] with the overall score 0, inside the
    range from 0 to 5, and that [performSingleAnalysis] rejects with the
    error for missing fields; three such runs make [analyzeAudio] throw that
    error, in whatever order they settle, and the revision with a single run
    throws it too, wrapped. *)
Theorem C10_zero_score_rejected_as_missing :
  exists result r,
    forallb (fun field => match get field result with Some _ => true | None => false end)
            requiredFields = true /\
    GeminiService.asAnalysisResult result = Some r /\
    overallScore r == 0 /\ 0 <= overallScore r /\ overallScore r <= 5 /\
    GeminiService.performSingleAnalysis (GeminiService.Parsed result)
    = Rejected (AnError GeminiService.missingFieldsError) /\
    (forall order,
        GeminiService.analyzeAudio (Some "secret"%string)
          (fun _ => GeminiService.Parsed result) order
        = GeminiService.Throws (AnError GeminiService.missingFieldsError)) /\
    GeminiServiceSingle.analyzeAudio (Some "secret"%string) (GeminiService.Parsed result)
    = Rejected (AnError (mkError "Error"
        "Failed to analyze audio: Invalid response structure from API. Missing required fields.")).
Proof.
  exists zeroScoreReply. eexists.
  split; [reflexivity|].
  split; [vm_compute; reflexivity|].
  split; [reflexivity|].
  split; [unfold Qle; simpl; lia|].
  split; [unfold Qle; simpl; lia|].
  assert (Hrun : GeminiService.performSingleAnalysis (GeminiService.Parsed zeroScoreReply)
                 = Rejected (AnError GeminiService.missingFieldsError)).
  { apply zero_score_rejected with (q := 0); reflexivity. }
  split; [exact Hrun|].
  split; [|reflexivity].
  intros order. unfold GeminiService.analyzeAudio.
  simpl negb. cbv iota.
  change (map _ (seq 0 GeminiService.analysisRuns))
    with (repeat (GeminiService.performSingleAnalysis (GeminiService.Parsed zeroScoreReply)) 3).
  rewrite Hrun, Promise_all_same_rejection. reflexivity.
Qed.

(** ** The highlighter *)

Import ResultsCard.

(** *** Strings *)

Lemma append_empty_r (s : string) : (s ++ "")%string = s.
Proof. induction s as [|c s IH]; simpl; [reflexivity|rewrite IH; reflexivity]. Qed.

Lemma append_assoc (s t u : string) : ((s ++ t) ++ u)%string = (s ++ (t ++ u))%string.
Proof. induction s as [|c s IH]; simpl; [reflexivity|rewrite IH; reflexivity]. Qed.

Lemma length_append (s t : string) :
  String.length (s ++ t) = (String.length s + String.length t)%nat.
Proof. induction s as [|c s IH]; simpl; [reflexivity|rewrite IH; reflexivity]. Qed.

Lemma isEmpty_true (s : string) : isEmpty s = true <-> s = EmptyString.
Proof. unfold isEmpty. apply String.eqb_eq. Qed.

Lemma isEmpty_false (s : string) : isEmpty s = false <-> s <> EmptyString.
Proof. unfold isEmpty. apply String.eqb_neq. Qed.

Lemma concat_empty_cons (s : string) (l : list string) :
  String.concat "" (s :: l) = (s ++ String.concat "" l)%string.
Proof. destruct l; simpl; [rewrite append_empty_r|]; reflexivity. Qed.

(** *** The source of the regular expression is read back literally *)

Lemma isSpecial_isSyntaxCharacter (c : ascii) : isSyntaxCharacter c = isSpecial c.
Proof. destruct c as [[] [] [] [] [] [] [] []]; reflexivity. Qed.

Lemma isSpecial_backslash (c : ascii) : isSpecial c = false -> Ascii.eqb c "\" = false.
Proof. destruct c as [[] [] [] [] [] [] [] []]; vm_compute; intros H; congruence. Qed.

Lemma tokenize_escapeSpecial (phrase rest : string) :
  tokenize (escapeSpecial phrase ++ rest)
  = map Literal (list_ascii_of_string phrase) ++ tokenize rest.
Proof.
  induction phrase as [|c phrase IH]; [reflexivity|].
  simpl escapeSpecial. destruct (isSpecial c) eqn:E.
  - simpl. rewrite isSpecial_isSyntaxCharacter, E, IH. reflexivity.
  - simpl. rewrite (isSpecial_backslash c E), isSpecial_isSyntaxCharacter, E, IH.
    reflexivity.
Qed.

Lemma parseDisjunction_nonempty (tokens : list Token) : parseDisjunction tokens <> Some [].
Proof.
  induction tokens as [|[c|c| |] tokens IH]; simpl; try discriminate.
  - destruct (parseDisjunction tokens) as [[|]|]; discriminate.
  - destruct (Ascii.eqb c "|").
    + destruct (parseDisjunction tokens); discriminate.
    + destruct (Ascii.eqb c ")"); [destruct tokens|]; discriminate.
Qed.

Lemma parseDisjunction_literals (phrase : string) (tokens : list Token) :
  parseDisjunction (map Literal (list_ascii_of_string phrase) ++ tokens)
  = match parseDisjunction tokens with
    | Some (alternative :: others) => Some ((phrase ++ alternative)%string :: others)
    | _ => None
    end.
Proof.
  induction phrase as [|c phrase IH].
  - simpl. pose proof (parseDisjunction_nonempty tokens) as H.
    destruct (parseDisjunction tokens) as [[|]|]; congruence.
  - simpl. rewrite IH. destruct (parseDisjunction tokens) as [[|]|]; reflexivity.
Qed.

Lemma parseDisjunction_bar (tokens : list Token) :
  parseDisjunction (Syntax "|" :: tokens)
  = option_map (cons EmptyString) (parseDisjunction tokens).
Proof. reflexivity. Qed.

Lemma parseDisjunction_phrases (phrase : string) (phrases : list string) :
  parseDisjunction
    (tokenize (String.concat "|" (map escapeSpecial (phrase :: phrases)) ++ ")"))
  = Some (phrase :: phrases).
Proof.
  revert phrase. induction phrases as [|next phrases IH]; intros phrase.
  - simpl String.concat. rewrite tokenize_escapeSpecial, parseDisjunction_literals.
    simpl. rewrite append_empty_r. reflexivity.
  - change (String.concat "|" (map escapeSpecial (phrase :: next :: phrases)))
      with (escapeSpecial phrase ++ "|" ++
            String.concat "|" (map escapeSpecial (next :: phrases)))%string.
    rewrite !append_assoc, tokenize_escapeSpecial, parseDisjunction_literals.
    change (tokenize ("|" ++ String.concat "|" (map escapeSpecial (next :: phrases)) ++ ")"))
      with (Syntax "|" ::
            tokenize (String.concat "|" (map escapeSpecial (next :: phrases)) ++ ")")).
    rewrite parseDisjunction_bar, IH. simpl. rewrite append_empty_r. reflexivity.
Qed.

(** Whatever the phrases hold, the pattern built from them is a group of
    literal alternatives, one per mistake: the phrases themselves. *)
Lemma newRegExp_regexSource (m : Mistake) (ms : list Mistake) :
  newRegExp (regexSource (m :: ms)) = Some (map incorrectPhrase (m :: ms)).
Proof.
  unfold regexSource.
  assert (E : map (fun m0 => escapeSpecial (incorrectPhrase m0)) (m :: ms)
              = map escapeSpecial (incorrectPhrase m :: map incorrectPhrase ms)).
  { simpl. rewrite map_map. reflexivity. }
  rewrite E. clear E.
  set (body := String.concat "|" _).
  unfold newRegExp.
  change (tokenize ("(" ++ body ++ ")")) with (Syntax "(" :: tokenize (body ++ ")")).
  cbv beta iota. change (Ascii.eqb "(" "(") with true. cbv iota.
  subst body. rewrite parseDisjunction_phrases. reflexivity.
Qed.

(** *** The matcher *)

Lemma matchLiteral_append (alternative input matched after : string) :
  matchLiteral alternative input = Some (matched, after) ->
  input = (matched ++ after)%string /\ String.length matched = String.length alternative.
Proof.
  revert input matched. induction alternative as [|a alternative IH]; intros input matched; simpl.
  - intros [= <- <-]. split; reflexivity.
  - destruct input as [|c input]; [discriminate|].
    destruct (N.eqb (canonicalize a) (canonicalize c)); [|discriminate].
    destruct (matchLiteral alternative input) as [[m r]|] eqn:E; [|discriminate].
    intros [= <- <-]. destruct (IH _ _ E) as [-> Hlen]. simpl. split; congruence.
Qed.

Lemma matchDisjunction_In (alternatives : list string) (input matched after : string) :
  matchDisjunction alternatives input = Some (matched, after) ->
  exists alternative,
    In alternative alternatives /\ matchLiteral alternative input = Some (matched, after).
Proof.
  induction alternatives as [|alternative others IH]; simpl; [discriminate|].
  destruct (matchLiteral alternative input) as [r|] eqn:E.
  - intros [= ->]. exists alternative. auto.
  - intros H. destruct (IH H) as (alt & Hin & Halt). exists alt. auto.
Qed.

Lemma matchDisjunction_append (alternatives : list string) (input matched after : string) :
  matchDisjunction alternatives input = Some (matched, after) ->
  input = (matched ++ after)%string.
Proof.
  intros H. destruct (matchDisjunction_In _ _ _ _ H) as (alt & _ & Halt).
  apply (matchLiteral_append _ _ _ _ Halt).
Qed.

Lemma matchDisjunction_hit (alternatives : list string) (alternative input : string)
  (r : string * string) :
  In alternative alternatives -> matchLiteral alternative input = Some r ->
  exists r', matchDisjunction alternatives input = Some r'.
Proof.
  induction alternatives as [|first others IH]; simpl; [contradiction|].
  intros [->|Hin] Hm.
  - rewrite Hm. eauto.
  - destruct (matchLiteral first input); eauto.
Qed.

(** *** [split] returns, and cuts the text into consecutive pieces *)

Lemma splitLoop_returns (regex : list string) (fuel : nat) (pending input : string) :
  (2 * String.length input + (if isEmpty pending then 0 else 1) <= fuel)%nat ->
  exists A, splitLoop regex fuel pending input = Some A.
Proof.
  revert pending input. induction fuel as [|fuel IH]; intros pending input Hfuel.
  - destruct input; simpl in *; [eauto|lia].
  - destruct input as [|c input]; [simpl; eauto|].
    assert (Hadvance : exists A,
               splitLoop regex fuel (pending ++ String c "") input = Some A).
    { apply IH. simpl String.length in Hfuel.
      destruct (isEmpty (pending ++ String c "")); lia. }
    cbn [splitLoop].
    destruct (matchDisjunction regex (String c input)) as [[matched after]|] eqn:E;
      [|exact Hadvance].
    destruct (isEmpty matched && isEmpty pending) eqn:Eboth; [exact Hadvance|].
    pose proof (matchDisjunction_append _ _ _ _ E) as Hcut.
    assert (Hlen : String.length (String c input)
                   = (String.length matched + String.length after)%nat).
    { rewrite Hcut at 1. apply length_append. }
    destruct (IH EmptyString after) as [A ->]; [|simpl; eauto].
    change (isEmpty "") with true. cbv iota.
    apply andb_false_iff in Eboth. destruct Eboth as [Hm|Hp].
    + apply isEmpty_false in Hm. destruct matched; [congruence|].
      simpl String.length in *. destruct (isEmpty pending); lia.
    + rewrite Hp in Hfuel. lia.
Qed.

Lemma split_returns (regex : list string) (S : string) :
  exists A, split regex S = Some A.
Proof.
  destruct S as [|c S].
  - simpl. destruct (matchDisjunction regex ""); eauto.
  - unfold split. apply splitLoop_returns. simpl. lia.
Qed.

Lemma splitLoop_concat (regex : list string) (fuel : nat) (pending input : string)
  (A : list string) :
  splitLoop regex fuel pending input = Some A ->
  String.concat "" A = (pending ++ input)%string.
Proof.
  revert pending input A. induction fuel as [|fuel IH]; intros pending input A.
  - destruct input; simpl; [|discriminate].
    intros [= <-]. simpl. rewrite append_empty_r. reflexivity.
  - destruct input as [|c input].
    { simpl. intros [= <-]. simpl. rewrite append_empty_r. reflexivity. }
    assert (Hadvance : splitLoop regex fuel (pending ++ String c "") input = Some A ->
                       String.concat "" A = (pending ++ String c input)%string).
    { intros H. rewrite (IH _ _ _ H), append_assoc. reflexivity. }
    cbn [splitLoop].
    destruct (matchDisjunction regex (String c input)) as [[matched after]|] eqn:E;
      [|exact Hadvance].
    destruct (isEmpty matched && isEmpty pending); [exact Hadvance|].
    destruct (splitLoop regex fuel "" after) as [A'|] eqn:E'; [|discriminate].
    simpl. intros [= <-].
    rewrite !concat_empty_cons, (IH _ _ _ E').
    rewrite (matchDisjunction_append _ _ _ _ E). reflexivity.
Qed.

Lemma split_concat (regex : list string) (S : string) (A : list string) :
  split regex S = Some A -> String.concat "" A = S.
Proof.
  destruct S as [|c S].
  - simpl. destruct (matchDisjunction regex ""); intros [= <-]; reflexivity.
  - unfold split. intros H. apply splitLoop_concat in H. exact H.
Qed.

(** *** From the pieces to the spans *)

Lemma concat_filter_nonempty (A : list string) :
  String.concat "" (filter (fun part => negb (isEmpty part)) A) = String.concat "" A.
Proof.
  induction A as [|s A IH]; [reflexivity|].
  rewrite concat_empty_cons. simpl filter.
  destruct (isEmpty s) eqn:E; simpl negb; cbv iota.
  - apply isEmpty_true in E. subst s. exact IH.
  - rewrite concat_empty_cons, IH. reflexivity.
Qed.

Lemma spanText_renderPart (mistakes : list Mistake) (part : string) :
  spanText (renderPart mistakes part) = part.
Proof. unfold renderPart. destruct (find _ mistakes); reflexivity. Qed.

Lemma map_spanText_renderPart (mistakes : list Mistake) (parts : list string) :
  map spanText (map (renderPart mistakes) parts) = parts.
Proof.
  induction parts as [|part parts IH]; simpl; [reflexivity|].
  rewrite spanText_renderPart, IH. reflexivity.
Qed.

(** [HighlightedText] with at least one mistake: the regular expression is
    built, [split] returns, and the spans are the non-empty pieces. *)
Lemma HighlightedText_some (text : string) (m : Mistake) (ms : list Mistake) :
  exists A,
    split (map incorrectPhrase (m :: ms)) text = Some A /\
    HighlightedText text (Some (m :: ms))
    = Some (map (renderPart (m :: ms)) (filter (fun part => negb (isEmpty part)) A)).
Proof.
  destruct (split_returns (map incorrectPhrase (m :: ms)) text) as [A HA].
  exists A. split; [exact HA|].
  unfold HighlightedText. rewrite newRegExp_regexSource, HA. reflexivity.
Qed.

Lemma HighlightedText_concat (text : string) (mistakes : option (list Mistake)) :
  exists spans,
    HighlightedText text mistakes = Some spans /\
    String.concat "" (map spanText spans) = text.
Proof.
  destruct mistakes as [[|m ms]|]; try (exists [Plain text]; split; reflexivity).
  destruct (HighlightedText_some text m ms) as (A & HA & ->).
  eexists. split; [reflexivity|].
  rewrite map_spanText_renderPart, concat_filter_nonempty.
  apply (split_concat _ _ _ HA).
Qed.

(** *** Letter case *)






(** *** Recognition *)


(** When some alternative matches somewhere in the input and no
    alternative is empty, one of the pieces is a match. *)
Lemma splitLoop_finds (regex : list string) (fuel : nat) (pending : string)
  (before rest : string) (alternative : string) (r : string * string) (A : list string) :
  Forall (fun alt => alt <> EmptyString) regex ->
  In alternative regex ->
  matchLiteral alternative rest = Some r ->
  splitLoop regex fuel pending (before ++ rest) = Some A ->
  exists input matched after,
    matchDisjunction regex input = Some (matched, after) /\
    matched <> EmptyString /\ In matched A.
Proof.
  intros Hne Hin Hm. revert pending before A.
  induction fuel as [|fuel IH]; intros pending before A.
  - destruct (before ++ rest)%string eqn:E; simpl; [|discriminate].
    destruct before; [|discriminate]. simpl in E. subst rest.
    destruct alternative as [|a alternative]; [|discriminate].
    rewrite Forall_forall in Hne. exfalso. apply (Hne _ Hin). reflexivity.
  - destruct (before ++ rest)%string as [|c input] eqn:E.
    { destruct before; [|discriminate]. simpl in E. subst rest.
      destruct alternative as [|a alternative]; [|discriminate].
      rewrite Forall_forall in Hne. exfalso. apply (Hne _ Hin). reflexivity. }
    cbn [splitLoop].
    destruct (matchDisjunction regex (String c input)) as [[matched after]|] eqn:Ematch.
    + assert (Hmatched : matched <> EmptyString).
      { destruct (matchDisjunction_In _ _ _ _ Ematch) as (alt & Halt & Hlit).
        apply matchLiteral_append in Hlit. destruct Hlit as [_ Hlen].
        rewrite Forall_forall in Hne. specialize (Hne _ Halt).
        destruct alt; [congruence|]. destruct matched; [discriminate|congruence]. }
      apply isEmpty_false in Hmatched. rewrite Hmatched. simpl andb. cbv iota.
      destruct (splitLoop regex fuel "" after) as [A'|]; [|discriminate].
      simpl. intros [= <-]. exists (String c input), matched, after.
      split; [exact Ematch|]. split; [apply isEmpty_false; exact Hmatched|].
      simpl. auto.
    + destruct before as [|b before].
      * simpl in E. subst rest.
        destruct (matchDisjunction_hit regex alternative _ r Hin Hm) as [r' Hr']. congruence.
      * simpl in E. injection E as -> <-. apply IH.
Qed.


(** *** An empty phrase declared first *)





(** *** Leftmost match first *)




(** *** Stretches without a match *)






(** *** An empty phrase anywhere, and what is found *)




























(** *** C6 *)

(** C6: without mistakes, absent or an empty list, [HighlightedText] gives
    exactly one plain span, the whole text unchanged. *)
Theorem C6_no_mistakes_one_plain_span (text : string) :
  HighlightedText text None = Some [Plain text] /\
  HighlightedText text (Some []) = Some [Plain text].
Proof. split; reflexivity. Qed.

(** *** C7 *)

(** C7: [HighlightedText] always returns spans, and their texts, put
    together in order, are the input text. *)
Theorem C7_spans_concatenate_to_text (text : string) (mistakes : option (list Mistake)) :
  exists spans,
    HighlightedText text mistakes = Some spans /\
    String.concat "" (map spanText spans) = text.
Proof. apply HighlightedText_concat. Qed.

(** *** C8 *)




(** The same text with the empty phrase declared after the phrase: the
    highlight is there, the plain text around it in pieces of one
    character. *)
Example HighlightedText_phrase_before_empty_phrase :
  HighlightedText "so WHAT'S UP? ok" (Some [sampleMistake "what's up?"; sampleMistake ""])
  = Some [Plain "s"; Plain "o"; Plain " "; Highlight "WHAT'S UP?" (sampleMistake "what's up?");
          Plain " "; Plain "o"; Plain "k"].
Proof. vm_compute. reflexivity. Qed.

(** *** C9 *)




(** An empty phrase declared last: the same highlight, the plain text in
    pieces of one character. *)
Example HighlightedText_empty_phrase_last :
  HighlightedText "xABcd" (Some [sampleMistake "ab"; sampleMistake ""])
  = Some [Plain "x"; Highlight "AB" (sampleMistake "ab"); Plain "c"; Plain "d"] /\
  HighlightedText "xABcd" (Some [sampleMistake "ab"])
  = Some [Plain "x"; Highlight "AB" (sampleMistake "ab"); Plain "cd"].
Proof. split; vm_compute; reflexivity. Qed.

(** ** Worked examples *)

(** The scenario of three runs scored 3, 4, 5 overall and 2, 3, 4 for
    Clarity: the result has the overall score 4, Clarity 3 and the feedback
    of the first run. *)
Example analyzeAudio_345 :
  exists r,
    GeminiService.analyzeAudio (Some "secret"%string) service345 [] = GeminiService.Returns r /\
    overallScore r == 4 /\
    (exists clarity, dimensionAnalysis r = [clarity] /\
                     name clarity = "Clarity"%string /\ score clarity == 3) /\
    feedback r = ["first"%string].
Proof.
  eexists. split; [vm_compute; reflexivity|].
  split; [reflexivity|]. split; [|reflexivity].
  eexists. split; [reflexivity|]. split; reflexivity.
Qed.

(** A reply that is [null] makes the run throw a [TypeError], not the error
    for missing fields. *)
Example performSingleAnalysis_null :
  GeminiService.performSingleAnalysis (GeminiService.Parsed Null)
  = Rejected (AnError GeminiService.nullPropertyError).
Proof. reflexivity. Qed.

Example HighlightedText_I_seen :
  HighlightedText "I seen him yesterday"
    (Some [mkMistake "I seen" "I saw" "past tense"])
  = Some [Highlight "I seen" (mkMistake "I seen" "I saw" "past tense");
          Plain " him yesterday"].
Proof. vm_compute. reflexivity. Qed.

(** The question mark of the phrase is no quantifier: the text without it
    is not matched. *)
Example HighlightedText_question_mark :
  HighlightedText "so what's u and what's up" (Some [sampleMistake "what's up?"])
  = Some [Plain "so what's u and what's up"].
Proof. vm_compute. reflexivity. Qed.

Example HighlightedText_first_declared_wins :
  HighlightedText "xABcd" (Some [sampleMistake "ab"; sampleMistake "abc"])
  = Some [Plain "x"; Highlight "AB" (sampleMistake "ab"); Plain "cd"].
Proof. vm_compute. reflexivity. Qed.

(** * Further properties of the code *)

(** ** [analyzeAudio], the revision with validation *)

Lemma first_settled_failure_is_thrown API_KEY service order i t :
  keySet API_KEY ->
  (i < 3)%nat ->
  GeminiService.performSingleAnalysis (service i) = Rejected t ->
  GeminiService.analyzeAudio API_KEY service (i :: order)
  = GeminiService.Throws (GeminiService.rethrow t).
Proof.
  unfold GeminiService.analyzeAudio, keySet. intros -> Hi Hrun. simpl negb. cbv iota.
  set (ps := map _ _).
  assert (Hnth : nth_error ps i = Some (Rejected t)).
  { subst ps. unfold GeminiService.analysisRuns.
    destruct i as [|[|[|i]]]; simpl; try (f_equal; assumption); lia. }
  unfold Promise_all. simpl firstRejection. rewrite Hnth. reflexivity.
Qed.

(** When several runs fail, the error thrown is that of the failed run that
    settles first. *)
Theorem analyzeAudio_throws_first_settled_failure API_KEY service order i t :
  keySet API_KEY ->
  (i < 3)%nat ->
  GeminiService.performSingleAnalysis (service i) = Rejected t ->
  GeminiService.analyzeAudio API_KEY service (i :: order)
  = GeminiService.Throws (GeminiService.rethrow t).
Proof. intros. eapply first_settled_failure_is_thrown; eassumption. Qed.

Lemma analyzeAudio_throws_first_settled_failure_witness :
  GeminiService.analyzeAudio (Some "secret"%string) serviceTwoFailures [1; 2; 0]%nat
  = GeminiService.Throws (AnError GeminiService.missingFieldsError) /\
  GeminiService.analyzeAudio (Some "secret"%string) serviceTwoFailures [2; 1; 0]%nat
  = GeminiService.Throws (AnError (mkError "Error" "503 Service Unavailable")).
Proof.
  split.
  - apply (analyzeAudio_throws_first_settled_failure (Some "secret"%string)
             serviceTwoFailures [2; 0]%nat 1%nat (AnError GeminiService.missingFieldsError)).
    + reflexivity.
    + lia.
    + reflexivity.
  - apply (analyzeAudio_throws_first_settled_failure (Some "secret"%string)
             serviceTwoFailures [1; 0]%nat 2%nat
             (AnError (mkError "Error" "503 Service Unavailable"))).
    + reflexivity.
    + lia.
    + reflexivity.
Defined.

(** Without a key, absent or empty, no run counts: [analyzeAudio] throws
    the configuration error whatever the model would have replied. *)
Theorem analyzeAudio_without_key service order :
  GeminiService.analyzeAudio None service order
  = GeminiService.Throws (AnError GeminiService.configurationError) /\
  GeminiService.analyzeAudio (Some EmptyString) service order
  = GeminiService.Throws (AnError GeminiService.configurationError).
Proof. split; reflexivity. Qed.

Lemma mean3_in_range (a b c : Q) :
  0 <= a /\ a <= 5 -> 0 <= b /\ b <= 5 -> 0 <= c /\ c <= 5 ->
  0 <= mean3 a b c /\ mean3 a b c <= 5.
Proof.
  intros [Ha Ha'] [Hb Hb'] [Hc Hc']. unfold mean3.
  split.
  - apply Qle_shift_div_l; [reflexivity|]. lra.
  - apply Qle_shift_div_r; [reflexivity|]. lra.
Qed.

Lemma contribution_in_range (n : string) (ds : list Dimension) (q : Q) :
  Forall (fun d => 0 <= score d /\ score d <= 5) ds ->
  contribution n ds q -> 0 <= q /\ q <= 5.
Proof.
  intros Hall [(before & d & after & -> & _ & _ & ->)|[_ ->]].
  - rewrite Forall_forall in Hall. apply Hall. apply in_or_app. right. left. reflexivity.
  - split; [apply Qle_refl|]. unfold Qle. simpl. lia.
Qed.

Lemma mergeResults_in_range API_KEY service order r0 r1 r2 :
  keySet API_KEY ->
  validatedRuns service r0 r1 r2 ->
  scoresInRange r0 -> scoresInRange r1 -> scoresInRange r2 ->
  exists r,
    GeminiService.analyzeAudio API_KEY service order = GeminiService.Returns r /\
    scoresInRange r.
Proof.
  intros Hkey Hv [H0 D0] [H1 D1] [H2 D2].
  eexists. split; [apply analyzeAudio_returns; eassumption|].
  split.
  - cbn [overallScore GeminiService.mergeResults].
    pose proof (totalOverallScore_3 r0 r1 r2) as E.
    pose proof (mean3_in_range _ _ _ H0 H1 H2) as [Hlo Hhi].
    rewrite <- E in Hlo, Hhi. split; assumption.
  - cbn [dimensionAnalysis GeminiService.mergeResults].
    unfold GeminiService.averagedDimensions. apply Forall_forall.
    intros merged Hin. apply in_map_iff in Hin. destruct Hin as (dimension & <- & _).
    cbn [score].
    destruct (totalDimScore_3 r0 r1 r2 dimension) as (c0 & c1 & c2 & C0 & C1 & C2 & E).
    pose proof (mean3_in_range c0 c1 c2
                  (contribution_in_range _ _ _ D0 C0)
                  (contribution_in_range _ _ _ D1 C1)
                  (contribution_in_range _ _ _ D2 C2)) as [Hlo Hhi].
    rewrite <- E in Hlo, Hhi. split; assumption.
Qed.

(** Scores stay in range: when every score of the three validated runs is
    between 0 and 5, so is every score of the merged result. *)
Theorem merged_scores_stay_in_range API_KEY service order r0 r1 r2 :
  keySet API_KEY ->
  validatedRuns service r0 r1 r2 ->
  scoresInRange r0 -> scoresInRange r1 -> scoresInRange r2 ->
  exists r,
    GeminiService.analyzeAudio API_KEY service order = GeminiService.Returns r /\
    scoresInRange r.
Proof. intros. eapply mergeResults_in_range; eassumption. Qed.


Lemma service345_runs :
  validatedRuns service345
    (sampleResult 3 [("Clarity"%string, 2)] "first")
    (sampleResult 4 [("Clarity"%string, 3)] "second")
    (sampleResult 5 [("Clarity"%string, 4)] "third").
Proof.
  unfold validatedRuns. do 3 eexists. repeat split; vm_compute; reflexivity.
Qed.

Lemma sampleResult_in_range (overall clarity : Z) (advice : string) :
  (0 <= overall <= 5)%Z -> (0 <= clarity <= 5)%Z ->
  scoresInRange (sampleResult (inject_Z overall) [("Clarity"%string, inject_Z clarity)] advice).
Proof.
  intros Ho Hc. unfold scoresInRange. simpl. split.
  - unfold Qle. simpl. lia.
  - repeat constructor; unfold Qle; simpl; lia.
Qed.

Lemma merged_scores_stay_in_range_witness :
  exists r,
    GeminiService.analyzeAudio (Some "secret"%string) service345 [] = GeminiService.Returns r /\
    scoresInRange r.
Proof.
  apply (merged_scores_stay_in_range (Some "secret"%string) service345 []
           (sampleResult 3 [("Clarity"%string, 2)] "first")
           (sampleResult 4 [("Clarity"%string, 3)] "second")
           (sampleResult 5 [("Clarity"%string, 4)] "third")).
  - reflexivity.
  - exact service345_runs.
  - apply (sampleResult_in_range 3 2); lia.
  - apply (sampleResult_in_range 4 3); lia.
  - apply (sampleResult_in_range 5 4); lia.
Defined.

Lemma findDimension_NoDup (ds : list Dimension) (d : Dimension) :
  NoDup (map name ds) -> In d ds -> GeminiService.findDimension (name d) ds = Some d.
Proof.
  unfold GeminiService.findDimension.
  induction ds as [|d0 ds IH]; simpl; [contradiction|].
  intros Hnd Hin. inversion Hnd as [|? ? Hnotin Hnd']; subst.
  destruct (String.eqb (name d0) (name d)) eqn:E.
  - apply String.eqb_eq in E. destruct Hin as [->|Hin]; [reflexivity|].
    exfalso. apply Hnotin. rewrite E. apply in_map. exact Hin.
  - apply String.eqb_neq in E. destruct Hin as [->|Hin]; [congruence|]. auto.
Qed.

Lemma Forall2_map_map {A B} (P : B -> B -> Prop) (f g : A -> B) (l : list A) :
  (forall a, In a l -> P (f a) (g a)) -> Forall2 P (map f l) (map g l).
Proof.
  induction l as [|a l IH]; simpl; intros H; constructor; auto.
Qed.

Lemma Forall2_map_self {A} (P : A -> A -> Prop) (f : A -> A) (l : list A) :
  (forall a, In a l -> P (f a) a) -> Forall2 P (map f l) l.
Proof.
  induction l as [|a l IH]; simpl; intros H; constructor; auto.
Qed.

(** ** The merge in binary64: identical runs *)

Section Binary64Examples.
Import Floats.PrimFloat.

(** Three identical runs need not merge to their common scores: with the
    overall score 3.7 and Clarity 3.3 in each of them, the three sums and
    the quotient of binary64 give 3.7000000000000006 and
    3.2999999999999994; the name of the dimension is kept. *)
Theorem identical_runs_drift_in_binary64 :
  exists r clarity,
    GeminiServiceBinary64.analyzeAudio (Some "secret"%string) serviceSameScores64 []
    = GeminiServiceBinary64.Returns r /\
    GeminiServiceBinary64.overallScore r = 3.7000000000000006%float /\
    GeminiServiceBinary64.overallScore r <> 3.7%float /\
    GeminiServiceBinary64.dimensionAnalysis r = [clarity] /\
    GeminiServiceBinary64.name clarity = "Clarity"%string /\
    GeminiServiceBinary64.score clarity = 3.2999999999999994%float /\
    GeminiServiceBinary64.score clarity <> 3.3%float.
Proof.
  do 2 eexists. split; [vm_compute; reflexivity|]. split; [reflexivity|].
  split; [vm_compute; intros H; discriminate H|].
  split; [reflexivity|]. split; [reflexivity|]. split; [reflexivity|].
  vm_compute. intros H. discriminate H.
Qed.

Lemma serviceSameScores64_validated :
  exists r0,
    validatedRuns64 serviceSameScores64 r0 r0 r0 /\
    GeminiServiceBinary64.overallScore r0 = tenths 37.
Proof.
  eexists. split.
  - unfold validatedRuns64. do 3 eexists. repeat split; vm_compute; reflexivity.
  - vm_compute. reflexivity.
Qed.

(** Checked for each of the 51 * 51 * 51 triples of scores from 0.0 to
    5.0. *)
Lemma meanOfTenthsIsNear_upto_50 :
  forallb (fun k0 =>
     forallb (fun k1 =>
        forallb (fun k2 => meanOfTenthsIsNear k0 k1 k2) (seq 0 51)) (seq 0 51)) (seq 0 51)
  = true.
Proof. vm_compute. reflexivity. Qed.

Lemma mean64_of_tenths (k0 k1 k2 : nat) :
  (k0 <= 50)%nat -> (k1 <= 50)%nat -> (k2 <= 50)%nat ->
  exists q,
    exact64 (mean64 (tenths k0) (tenths k1) (tenths k2)) = Some q /\
    Qabs (q - (Z.of_nat (k0 + k1 + k2) # 30)) <= 2 # 10 ^ 15.
Proof.
  intros H0 H1 H2. pose proof meanOfTenthsIsNear_upto_50 as H.
  rewrite forallb_forall in H. specialize (H k0 ltac:(apply in_seq; lia)).
  rewrite forallb_forall in H. specialize (H k1 ltac:(apply in_seq; lia)).
  rewrite forallb_forall in H. specialize (H k2 ltac:(apply in_seq; lia)).
  unfold meanOfTenthsIsNear in H.
  destruct (exact64 _) as [q|]; [|discriminate].
  exists q. split; [reflexivity|]. apply Qle_bool_iff. exact H.
Qed.

End Binary64Examples.

(** The drift stays in the last digits: when the three validated runs give
    overall scores of one decimal from 0.0 to 5.0, the merged overall score
    is within 2 * 10^-15 of the mean of the three decimals. *)
Theorem merged_overall_score_near_the_mean
  API_KEY service order r0 r1 r2 (k0 k1 k2 : nat) :
  keySet API_KEY ->
  validatedRuns64 service r0 r1 r2 ->
  (k0 <= 50)%nat -> (k1 <= 50)%nat -> (k2 <= 50)%nat ->
  GeminiServiceBinary64.overallScore r0 = tenths k0 ->
  GeminiServiceBinary64.overallScore r1 = tenths k1 ->
  GeminiServiceBinary64.overallScore r2 = tenths k2 ->
  exists r q,
    GeminiServiceBinary64.analyzeAudio API_KEY service order = GeminiServiceBinary64.Returns r /\
    exact64 (GeminiServiceBinary64.overallScore r) = Some q /\
    Qabs (q - (Z.of_nat (k0 + k1 + k2) # 30)) <= 2 # 10 ^ 15.
Proof.
  intros Hkey Hv H0 H1 H2 E0 E1 E2.
  destruct (mean64_of_tenths k0 k1 k2 H0 H1 H2) as (q & Hq & Hnear).
  eexists. exists q. split; [apply binary64_analyzeAudio_returns; eassumption|].
  split; [|exact Hnear].
  rewrite <- Hq, <- E0, <- E1, <- E2. reflexivity.
Qed.

Lemma merged_overall_score_near_the_mean_witness :
  exists r q,
    GeminiServiceBinary64.analyzeAudio (Some "secret"%string) serviceSameScores64 []
    = GeminiServiceBinary64.Returns r /\
    exact64 (GeminiServiceBinary64.overallScore r) = Some q /\
    Qabs (q - (Z.of_nat (37 + 37 + 37) # 30)) <= 2 # 10 ^ 15.
Proof.
  destruct serviceSameScores64_validated as (r0 & Hv & Hscore).
  apply (merged_overall_score_near_the_mean (Some "secret"%string) serviceSameScores64 []
           r0 r0 r0 37 37 37).
  - reflexivity.
  - exact Hv.
  - lia.
  - lia.
  - lia.
  - exact Hscore.
  - exact Hscore.
  - exact Hscore.
Defined.

(** ** [analyzeAudio], the revision with a single run *)

Lemma tryBody_performSingleAnalysis (reply : GeminiService.Reply) :
  GeminiServiceSingle.tryBody reply = GeminiService.performSingleAnalysis reply.
Proof. destruct reply as [t|e|[]]; reflexivity. Qed.

(** With the key set, the single-run [analyzeAudio] fails only with an
    [Error] of its own: the message of the error thrown inside, after the
    prefix "Failed to analyze audio: ", or the message for an unknown cause
    when what was thrown is no [Error]. *)
Theorem single_analyzeAudio_wraps_errors API_KEY reply t :
  keySet API_KEY ->
  GeminiServiceSingle.analyzeAudio API_KEY reply = Rejected t ->
  (exists e,
      GeminiService.performSingleAnalysis reply = Rejected (AnError e) /\
      t = AnError (mkError "Error" ("Failed to analyze audio: " ++ errMessage e)%string))
  \/ (exists v,
         GeminiService.performSingleAnalysis reply = Rejected (NotAnError v) /\
         t = AnError GeminiServiceSingle.unknownError).
Proof.
  unfold GeminiServiceSingle.analyzeAudio, keySet. intros ->. simpl negb. cbv iota.
  rewrite tryBody_performSingleAnalysis.
  destruct (GeminiService.performSingleAnalysis reply) as [v|[e|v]]; try discriminate.
  - intros [= <-]. left. exists e. auto.
  - intros [= <-]. right. exists v. auto.
Qed.

Lemma single_analyzeAudio_wraps_errors_witness :
  (exists e,
      GeminiService.performSingleAnalysis (GeminiService.Parsed replyWithoutFeedback)
      = Rejected (AnError e) /\
      AnError (mkError "Error"
        "Failed to analyze audio: Invalid response structure from API. Missing required fields.")
      = AnError (mkError "Error" ("Failed to analyze audio: " ++ errMessage e)%string))
  \/ (exists v,
         GeminiService.performSingleAnalysis (GeminiService.Parsed replyWithoutFeedback)
         = Rejected (NotAnError v) /\
         AnError (mkError "Error"
           "Failed to analyze audio: Invalid response structure from API. Missing required fields.")
         = AnError GeminiServiceSingle.unknownError).
Proof.
  apply (single_analyzeAudio_wraps_errors (Some "secret"%string)
           (GeminiService.Parsed replyWithoutFeedback)).
  - reflexivity.
  - reflexivity.
Defined.

(** ** Rounding *)

Lemma toFixed2_comp (x y : Q) :
  x == y -> GeminiServiceRounded.toFixed2 x == GeminiServiceRounded.toFixed2 y.
Proof.
  intros E. unfold GeminiServiceRounded.toFixed2.
  assert (Ea : Qabs x == Qabs y) by (rewrite E; reflexivity).
  assert (Eb : Qle_bool (inject_Z (10 ^ 21)) (Qabs x) = Qle_bool (inject_Z (10 ^ 21)) (Qabs y)).
  { destruct (Qle_bool _ (Qabs y)) eqn:Hy.
    - apply Qle_bool_iff. apply Qle_bool_iff in Hy. rewrite Ea. exact Hy.
    - destruct (Qle_bool _ (Qabs x)) eqn:Hx; [|reflexivity].
      apply Qle_bool_iff in Hx. rewrite Ea in Hx. apply Qle_bool_iff in Hx. congruence. }
  assert (Es : Qle_bool 0 x = Qle_bool 0 y).
  { destruct (Qle_bool 0 y) eqn:Hy.
    - apply Qle_bool_iff. apply Qle_bool_iff in Hy. rewrite E. exact Hy.
    - destruct (Qle_bool 0 x) eqn:Hx; [|reflexivity].
      apply Qle_bool_iff in Hx. rewrite E in Hx. apply Qle_bool_iff in Hx. congruence. }
  assert (Ef : Qfloor (Qabs x * 100 + (1 # 2)) = Qfloor (Qabs y * 100 + (1 # 2))).
  { apply Qfloor_comp. rewrite Ea. reflexivity. }
  rewrite Eb, Es, Ef.
  destruct (Qle_bool _ (Qabs y)); destruct (Qle_bool 0 y); rewrite ?Ea; reflexivity.
Qed.

Lemma Qfloor_half (n : Z) : Qfloor (inject_Z n + (1 # 2)) = n.
Proof.
  unfold Qfloor, Qplus, inject_Z. simpl.
  replace (n * 2 + 1)%Z with (1 + n * 2)%Z by lia.
  rewrite Z.div_add by lia. reflexivity.
Qed.

(** A number of two decimals is left as it is. *)
Lemma toFixed2_hundredths (n : Z) :
  GeminiServiceRounded.toFixed2 (n # 100) == n # 100.
Proof.
  unfold GeminiServiceRounded.toFixed2.
  assert (Hsign : Qle_bool 0 (n # 100) = (0 <=? n)%Z).
  { unfold Qle_bool. simpl. f_equal. lia. }
  assert (Habs : Qabs (n # 100) == Z.abs n # 100) by reflexivity.
  assert (Hfloor : Qfloor (Qabs (n # 100) * 100 + (1 # 2)) = Z.abs n).
  { rewrite <- (Qfloor_half (Z.abs n)). apply Qfloor_comp.
    rewrite Habs. apply Qplus_comp; [|reflexivity].
    unfold Qeq, Qmult, inject_Z. simpl. lia. }
  rewrite Hsign, Hfloor.
  assert (Hdiv : inject_Z (Z.abs n) / 100 == Z.abs n # 100).
  { unfold Qeq, Qdiv, Qmult, Qinv, inject_Z. simpl. lia. }
  destruct (Qle_bool (inject_Z (10 ^ 21)) (Qabs (n # 100)));
    destruct (0 <=? n)%Z eqn:Hn; rewrite ?Hdiv, ?Habs;
    unfold Qeq, Qopp; simpl; lia.
Qed.

Lemma toFixed2_again (x : Q) :
  GeminiServiceRounded.round2 (GeminiServiceRounded.round2 x)
  == GeminiServiceRounded.round2 x.
Proof.
  unfold GeminiServiceRounded.round2.
  destruct (Qlt_le_dec (Qabs x) (inject_Z (10 ^ 21))) as [Hsmall|Hbig].
  - destruct (toFixed2_roundedTo2 x Hsmall) as [[n Hn] _].
    rewrite (toFixed2_comp _ _ Hn), toFixed2_hundredths. symmetry. exact Hn.
  - assert (E : GeminiServiceRounded.toFixed2 x == x).
    { unfold GeminiServiceRounded.toFixed2.
      apply Qle_bool_iff in Hbig. rewrite Hbig.
      destruct (Qle_bool 0 x) eqn:Hs.
      - apply Qle_bool_iff in Hs. apply Qabs_pos. exact Hs.
      - assert (Hneg : x <= 0).
        { apply Qlt_le_weak, Qnot_le_lt. intro H. apply Qle_bool_iff in H. congruence. }
        rewrite (Qabs_neg x Hneg). ring. }
    apply toFixed2_comp. exact E.
Qed.

(** Rounding twice is rounding once: [parseFloat(x.toFixed(2))] leaves its
    own results as they are. *)
Theorem round2_idempotent (x : Q) :
  GeminiServiceRounded.round2 (GeminiServiceRounded.round2 x)
  == GeminiServiceRounded.round2 x.
Proof. intros. eapply toFixed2_again; eassumption. Qed.

Lemma toFixed2_in_score_range (x : Q) :
  0 <= x -> x <= 5 ->
  0 <= GeminiServiceRounded.round2 x /\ GeminiServiceRounded.round2 x <= 5.
Proof.
  intros Hlo Hhi. unfold GeminiServiceRounded.round2, GeminiServiceRounded.toFixed2.
  assert (Hsmall : Qle_bool (inject_Z (10 ^ 21)) (Qabs x) = false).
  { destruct (Qle_bool _ _) eqn:E; [|reflexivity]. apply Qle_bool_iff in E.
    rewrite (Qabs_pos x Hlo) in E. exfalso.
    assert (5 < inject_Z (10 ^ 21)) by (vm_compute; reflexivity). lra. }
  assert (Hsign : Qle_bool 0 x = true) by (apply Qle_bool_iff; exact Hlo).
  rewrite Hsmall, Hsign.
  set (n := Qfloor (Qabs x * 100 + (1 # 2))).
  assert (Hn : (0 <= n <= 500)%Z).
  { split.
    - change 0%Z with (Qfloor 0). apply Qfloor_resp_le.
      rewrite (Qabs_pos x Hlo). lra.
    - change 500%Z with (Qfloor (500 + (1 # 2))). apply Qfloor_resp_le.
      rewrite (Qabs_pos x Hlo). lra. }
  unfold Qle, Qdiv, Qmult, Qinv, inject_Z. simpl. lia.
Qed.

(** A score between 0 and 5 is still between 0 and 5 once rounded. *)
Theorem round2_keeps_score_range (x : Q) :
  0 <= x -> x <= 5 ->
  0 <= GeminiServiceRounded.round2 x /\ GeminiServiceRounded.round2 x <= 5.
Proof. intros. eapply toFixed2_in_score_range; eassumption. Qed.

Lemma round2_keeps_score_range_witness :
  0 <= GeminiServiceRounded.round2 (4 # 3) /\ GeminiServiceRounded.round2 (4 # 3) <= 5.
Proof.
  apply (round2_keeps_score_range (4 # 3)); unfold Qle; simpl; lia.
Defined.

(** ** [analyzeAudio], the revision that rounds *)

Lemma totalAt_Some_inv (results : list GeminiServiceRounded.AnalysisResult) (index : nat) :
  forall (acc : option Q) (total : Q),
    fold_left
      (fun acc r =>
         match acc, nth_error (GeminiServiceRounded.dimensions r) index with
         | Some a, Some d => Some (a + GeminiServiceRounded.score d)
         | _, _ => None
         end) results acc = Some total ->
    acc <> None /\
    Forall (fun r => (index < List.length (GeminiServiceRounded.dimensions r))%nat) results.
Proof.
  induction results as [|r results IH]; intros acc total; simpl.
  - intros ->. split; [discriminate|constructor].
  - intros H. destruct (IH _ _ H) as [Hacc Hall].
    destruct acc as [a|]; [|congruence].
    destruct (nth_error (GeminiServiceRounded.dimensions r) index) eqn:E; [|congruence].
    split; [discriminate|]. constructor; [|exact Hall].
    apply nth_error_Some. congruence.
Qed.

Lemma averageDimensions_Some_inv (results : list GeminiServiceRounded.AnalysisResult)
  (dims dims' : list GeminiServiceRounded.Dimension) (index : nat) :
  GeminiServiceRounded.averageDimensions results index dims = Some dims' ->
  Forall (fun r => dims = [] \/
                   (index + List.length dims
                    <= List.length (GeminiServiceRounded.dimensions r))%nat) results.
Proof.
  revert index dims'. induction dims as [|dim dims IH]; intros index dims'; simpl.
  - intros _. apply Forall_forall. intros; auto.
  - destruct (GeminiServiceRounded.totalAt results index) as [total|] eqn:Et; [|discriminate].
    destruct (GeminiServiceRounded.averageDimensions results (S index) dims) as [rest'|] eqn:Er;
      [|discriminate].
    intros _. apply totalAt_Some_inv in Et. destruct Et as [_ Ht].
    specialize (IH _ _ Er). rewrite Forall_forall in *.
    intros r Hr. specialize (IH r Hr). specialize (Ht r Hr). right.
    destruct IH as [->|IH]; simpl in *; lia.
Qed.

(** A run with fewer dimensions than the first makes the revision that
    rounds fail, with its one error for every cause. *)
Theorem rounded_analyzeAudio_fails_on_short_run API_KEY service order r0 r1 r2 :
  keySet API_KEY ->
  service 0%nat = Fulfilled r0 -> service 1%nat = Fulfilled r1 ->
  service 2%nat = Fulfilled r2 ->
  (List.length (GeminiServiceRounded.dimensions r1)
   < List.length (GeminiServiceRounded.dimensions r0))%nat
  \/ (List.length (GeminiServiceRounded.dimensions r2)
      < List.length (GeminiServiceRounded.dimensions r0))%nat ->
  GeminiServiceRounded.analyzeAudio API_KEY service order
  = Rejected (AnError GeminiServiceRounded.failedError).
Proof.
  intros Hkey H0 H1 H2 Hshort. unfold GeminiServiceRounded.analyzeAudio.
  rewrite Hkey, H0, H1, H2. simpl negb. cbv iota.
  change [Fulfilled r0; Fulfilled r1; Fulfilled r2] with (map Fulfilled [r0; r1; r2]).
  rewrite Promise_all_fulfilled.
  destruct (GeminiServiceRounded.averageDimensions [r0; r1; r2] 0
              (GeminiServiceRounded.dimensions r0)) as [dims'|] eqn:E; [|reflexivity].
  exfalso. apply averageDimensions_Some_inv in E.
  inversion E as [|? ? _ E1]; subst. inversion E1 as [|? ? L1 E2]; subst.
  inversion E2 as [|? ? L2 _]; subst. simpl in L1, L2.
  destruct L1 as [L1|L1]; [rewrite L1 in Hshort; simpl in Hshort; lia|].
  destruct L2 as [L2|L2]; [rewrite L2 in Hshort; simpl in Hshort; lia|]. lia.
Qed.

Lemma rounded_analyzeAudio_fails_on_short_run_witness :
  GeminiServiceRounded.analyzeAudio (Some "secret"%string)
    (fun i => match i with
              | 1%nat => Fulfilled (GeminiServiceRounded.mkResult 4 [] [] [] [])
              | _ => roundedService112 i
              end) []
  = Rejected (AnError GeminiServiceRounded.failedError).
Proof.
  apply (rounded_analyzeAudio_fails_on_short_run (Some "secret"%string)
           (fun i => match i with
                     | 1%nat => Fulfilled (GeminiServiceRounded.mkResult 4 [] [] [] [])
                     | _ => roundedService112 i
                     end) []
           (roundedRun 1 1) (GeminiServiceRounded.mkResult 4 [] [] [] []) (roundedRun 2 2)).
  - reflexivity.
  - reflexivity.
  - reflexivity.
  - reflexivity.
  - left. simpl. lia.
Defined.

(** With the key set, the revision that rounds never says why a run or
    the merge failed: whatever is thrown inside its [try], the caller gets
    the same one error.  Only what [fileToBase64] rejects with, before the
    [try], reaches the caller as it is. *)
Theorem rounded_analyzeAudio_hides_the_cause API_KEY read service order t :
  keySet API_KEY ->
  GeminiServiceRounded.analyzeAudioOfFile API_KEY read service order = Rejected t ->
  match read with
  | Rejected reason => t = reason
  | Fulfilled _ => t = AnError GeminiServiceRounded.failedError
  end.
Proof.
  unfold GeminiServiceRounded.analyzeAudioOfFile, GeminiServiceRounded.analyzeAudio, keySet.
  intros ->. simpl negb. cbv iota.
  destruct read as [base64Audio|reason]; [|intros [= <-]; reflexivity].
  destruct (Promise_all _ _) as [[|avgResult results]|t']; try (intros [= <-]; reflexivity).
  destruct (GeminiServiceRounded.averageDimensions _ _ _);
    [discriminate|intros [= <-]; reflexivity].
Qed.

Lemma rounded_analyzeAudio_hides_the_cause_witness :
  AnError GeminiServiceRounded.failedError = AnError GeminiServiceRounded.failedError /\
  NotAnError (Str "ProgressEvent") = NotAnError (Str "ProgressEvent").
Proof.
  split.
  - apply (rounded_analyzeAudio_hides_the_cause (Some "secret"%string)
             (Fulfilled (Some "UklGRg=="%string))
             (fun i => match i with
                       | 2%nat => Rejected (AnError (mkError "Error" "429 Too Many Requests"))
                       | _ => roundedService112 i
                       end) [0; 1; 2]%nat).
    + reflexivity.
    + vm_compute. reflexivity.
  - apply (rounded_analyzeAudio_hides_the_cause (Some "secret"%string)
             (Rejected (NotAnError (Str "ProgressEvent"))) roundedService112 []).
    + reflexivity.
    + reflexivity.
Defined.

Lemma averageDimensions_spec (results : list GeminiServiceRounded.AnalysisResult)
  (dims : list GeminiServiceRounded.Dimension) :
  forall (index : nat) (dims' : list GeminiServiceRounded.Dimension),
    GeminiServiceRounded.averageDimensions results index dims = Some dims' ->
    map GeminiServiceRounded.name dims' = map GeminiServiceRounded.name dims /\
    forall k d,
      nth_error dims' k = Some d ->
      exists total,
        GeminiServiceRounded.totalAt results (index + k) = Some total /\
        GeminiServiceRounded.score d
        = GeminiServiceRounded.round2
            (total / inject_Z (Z.of_nat (List.length results))).
Proof.
  induction dims as [|dim dims IH]; intros index dims'; simpl.
  - intros [= <-]. split; [reflexivity|]. intros [|k] d; discriminate.
  - destruct (GeminiServiceRounded.totalAt results index) as [total|] eqn:Et; [|discriminate].
    destruct (GeminiServiceRounded.averageDimensions results (S index) dims) as [rest'|] eqn:Er;
      [|discriminate].
    intros [= <-]. destruct (IH _ _ Er) as [Hnames Hscores]. split.
    + simpl. rewrite Hnames. reflexivity.
    + intros [|k] d; simpl.
      * intros [= <-]. exists total. rewrite Nat.add_0_r. auto.
      * intros Hk. destruct (Hscores k d Hk) as (t & Ht & Hd).
        exists t. rewrite Nat.add_succ_r. auto.
Qed.

(** The revision that rounds pairs the dimensions by position: the merged
    dimensions bear the names of the first run, and, for scores between 0
    and 5, the score at each position is within one hundredth of the mean
    of the scores the three runs have at that position, whatever the later
    runs call them. *)
Theorem rounded_analyzeAudio_merges_by_position API_KEY service order r0 r1 r2 :
  keySet API_KEY ->
  service 0%nat = Fulfilled r0 -> service 1%nat = Fulfilled r1 ->
  service 2%nat = Fulfilled r2 ->
  (List.length (GeminiServiceRounded.dimensions r0)
   <= List.length (GeminiServiceRounded.dimensions r1))%nat ->
  (List.length (GeminiServiceRounded.dimensions r0)
   <= List.length (GeminiServiceRounded.dimensions r2))%nat ->
  roundedScoresInRange r0 -> roundedScoresInRange r1 -> roundedScoresInRange r2 ->
  exists r,
    GeminiServiceRounded.analyzeAudio API_KEY service order = Fulfilled r /\
    map GeminiServiceRounded.name (GeminiServiceRounded.dimensions r)
    = map GeminiServiceRounded.name (GeminiServiceRounded.dimensions r0) /\
    forall k d,
      nth_error (GeminiServiceRounded.dimensions r) k = Some d ->
      exists d0 d1 d2,
        nth_error (GeminiServiceRounded.dimensions r0) k = Some d0 /\
        nth_error (GeminiServiceRounded.dimensions r1) k = Some d1 /\
        nth_error (GeminiServiceRounded.dimensions r2) k = Some d2 /\
        Qabs (GeminiServiceRounded.score d
              - mean3 (GeminiServiceRounded.score d0) (GeminiServiceRounded.score d1)
                      (GeminiServiceRounded.score d2)) <= 1 # 100.
Proof.
  intros Hkey H0 H1 H2 L1 L2 R0 R1 R2. unfold GeminiServiceRounded.analyzeAudio.
  rewrite Hkey, H0, H1, H2. simpl negb. cbv iota.
  change [Fulfilled r0; Fulfilled r1; Fulfilled r2] with (map Fulfilled [r0; r1; r2]).
  rewrite Promise_all_fulfilled.
  destruct (averageDimensions_Some [r0; r1; r2] (GeminiServiceRounded.dimensions r0) 0)
    as [dims' E].
  { repeat constructor; simpl; lia. }
  rewrite E. eexists. split; [reflexivity|].
  cbn [GeminiServiceRounded.dimensions].
  destruct (averageDimensions_spec _ _ _ _ E) as [Hnames Hscores].
  split; [exact Hnames|].
  intros k d Hk. destruct (Hscores k d Hk) as (total & Ht & ->).
  unfold GeminiServiceRounded.totalAt in Ht. simpl in Ht.
  destruct (nth_error (GeminiServiceRounded.dimensions r0) k) as [d0|] eqn:E0; [|discriminate].
  destruct (nth_error (GeminiServiceRounded.dimensions r1) k) as [d1|] eqn:E1; [|discriminate].
  destruct (nth_error (GeminiServiceRounded.dimensions r2) k) as [d2|] eqn:E2; [|discriminate].
  injection Ht as <-. exists d0, d1, d2. repeat split.
  unfold roundedScoresInRange in R0, R1, R2. rewrite Forall_forall in R0, R1, R2.
  pose proof (R0 _ (nth_error_In _ _ E0)) as B0.
  pose proof (R1 _ (nth_error_In _ _ E1)) as B1.
  pose proof (R2 _ (nth_error_In _ _ E2)) as B2.
  pose proof (mean3_in_range _ _ _ B0 B1 B2) as [Hlo Hhi].
  set (mean := mean3 (GeminiServiceRounded.score d0) (GeminiServiceRounded.score d1)
                     (GeminiServiceRounded.score d2)) in *.
  assert (Emean : (0 + GeminiServiceRounded.score d0 + GeminiServiceRounded.score d1
                   + GeminiServiceRounded.score d2) / inject_Z (Z.of_nat 3) == mean).
  { unfold mean, mean3. change (inject_Z (Z.of_nat 3)) with 3. field. }
  assert (Hsmall : Qabs mean < inject_Z (10 ^ 21)).
  { rewrite (Qabs_pos mean Hlo).
    assert (5 < inject_Z (10 ^ 21)) by (vm_compute; reflexivity). lra. }
  destruct (toFixed2_roundedTo2 mean Hsmall) as [_ Hnear].
  unfold GeminiServiceRounded.round2. simpl List.length.
  rewrite (toFixed2_comp _ _ Emean).
  assert ((1 # 200) <= (1 # 100)) by (unfold Qle; simpl; lia). lra.
Qed.

Lemma rounded_analyzeAudio_merges_by_position_witness :
  exists r,
    GeminiServiceRounded.analyzeAudio (Some "secret"%string) roundedService112 [] = Fulfilled r /\
    map GeminiServiceRounded.name (GeminiServiceRounded.dimensions r)
    = map GeminiServiceRounded.name (GeminiServiceRounded.dimensions (roundedRun 1 1)) /\
    forall k d,
      nth_error (GeminiServiceRounded.dimensions r) k = Some d ->
      exists d0 d1 d2,
        nth_error (GeminiServiceRounded.dimensions (roundedRun 1 1)) k = Some d0 /\
        nth_error (GeminiServiceRounded.dimensions (roundedRun 1 1)) k = Some d1 /\
        nth_error (GeminiServiceRounded.dimensions (roundedRun 2 2)) k = Some d2 /\
        Qabs (GeminiServiceRounded.score d
              - mean3 (GeminiServiceRounded.score d0) (GeminiServiceRounded.score d1)
                      (GeminiServiceRounded.score d2)) <= 1 # 100.
Proof.
  apply (rounded_analyzeAudio_merges_by_position (Some "secret"%string) roundedService112 []
           (roundedRun 1 1) (roundedRun 1 1) (roundedRun 2 2)).
  - reflexivity.
  - reflexivity.
  - reflexivity.
  - reflexivity.
  - simpl. lia.
  - simpl. lia.
  - repeat constructor; unfold Qle; simpl; lia.
  - repeat constructor; unfold Qle; simpl; lia.
  - repeat constructor; unfold Qle; simpl; lia.
Defined.

(** ** [analyzeAudio], the revision with a seed *)





(** Rounding the scores of a result that went through it changes
    nothing. *)
Theorem roundScores_idempotent (result : GeminiServiceSeeded.AnalysisResult) :
  let once := GeminiServiceSeeded.roundScores result in
  let twice := GeminiServiceSeeded.roundScores once in
  GeminiServiceSeeded.overallScore twice == GeminiServiceSeeded.overallScore once /\
  Forall2 (fun d d' =>
             GeminiServiceRounded.name d = GeminiServiceRounded.name d' /\
             GeminiServiceRounded.score d == GeminiServiceRounded.score d')
          (GeminiServiceSeeded.dimensions twice) (GeminiServiceSeeded.dimensions once) /\
  GeminiServiceSeeded.fluencySpeechRatePercentage twice
  == GeminiServiceSeeded.fluencySpeechRatePercentage once /\
  GeminiServiceSeeded.feedback twice = GeminiServiceSeeded.feedback once /\
  GeminiServiceSeeded.fillerWords twice = GeminiServiceSeeded.fillerWords once /\
  GeminiServiceSeeded.conversation twice = GeminiServiceSeeded.conversation once.
Proof.
  cbv zeta.
  cbn [GeminiServiceSeeded.roundScores GeminiServiceSeeded.overallScore
       GeminiServiceSeeded.dimensions GeminiServiceSeeded.fluencySpeechRatePercentage
       GeminiServiceSeeded.feedback GeminiServiceSeeded.fillerWords
       GeminiServiceSeeded.conversation].
  split; [apply toFixed2_again|]. split.
  - apply Forall2_map_self. intros d Hin. apply in_map_iff in Hin.
    destruct Hin as (d0 & <- & _). cbn [GeminiServiceRounded.name GeminiServiceRounded.score].
    split; [reflexivity|]. apply toFixed2_again.
  - split; [|auto]. unfold GeminiServiceSeeded.Math_round.
    rewrite Qfloor_half. reflexivity.
Qed.

(** ** Reading the audio file *)

Lemma hasComma_cons (c : ascii) (s : string) :
  hasComma (String c s) = Ascii.eqb "," c || hasComma s.
Proof. reflexivity. Qed.

Lemma splitComma_no_comma (s piece : string) :
  hasComma s = false -> FileReading.splitComma piece s = [(piece ++ s)%string].
Proof.
  revert piece. induction s as [|c s IH]; intros piece; simpl.
  - rewrite append_empty_r. reflexivity.
  - rewrite hasComma_cons. intros H. apply orb_false_iff in H. destruct H as [Hc Hs].
    rewrite Ascii.eqb_sym, Hc, (IH _ Hs), append_assoc. reflexivity.
Qed.

Lemma splitComma_comma (header rest piece : string) :
  hasComma header = false ->
  FileReading.splitComma piece (header ++ String "," rest)
  = (piece ++ header)%string :: FileReading.splitComma EmptyString rest.
Proof.
  revert piece. induction header as [|c header IH]; intros piece; simpl.
  - rewrite append_empty_r. reflexivity.
  - rewrite hasComma_cons. intros H. apply orb_false_iff in H. destruct H as [Hc Hs].
    rewrite Ascii.eqb_sym, Hc, (IH _ Hs), append_assoc. reflexivity.
Qed.

(** From a data URL, whose header holds no comma, the data after the first
    comma are kept, whole when they hold no comma (as base64 text does), and
    up to their first comma otherwise. *)
Theorem base64Data_of_data_url (header payload rest : string) :
  hasComma header = false ->
  hasComma payload = false ->
  FileReading.base64Data (header ++ "," ++ payload) = Some payload /\
  FileReading.base64Data (header ++ "," ++ payload ++ "," ++ rest) = Some payload.
Proof.
  intros Hh Hp. unfold FileReading.base64Data. split.
  - change (header ++ "," ++ payload)%string with (header ++ String "," payload)%string.
    rewrite (splitComma_comma _ _ _ Hh), (splitComma_no_comma _ _ Hp). reflexivity.
  - change (header ++ "," ++ payload ++ "," ++ rest)%string
      with (header ++ String "," (payload ++ String "," rest))%string.
    rewrite (splitComma_comma _ _ _ Hh), (splitComma_comma _ _ _ Hp). reflexivity.
Qed.

Lemma base64Data_of_data_url_witness :
  FileReading.base64Data ("data:audio/mpeg;base64" ++ "," ++ "SUQzBAAAAAAA")
  = Some "SUQzBAAAAAAA"%string /\
  FileReading.base64Data ("data:audio/mpeg;base64" ++ "," ++ "SUQzBAAAAAAA" ++ "," ++ "tail")
  = Some "SUQzBAAAAAAA"%string.
Proof.
  apply (base64Data_of_data_url "data:audio/mpeg;base64" "SUQzBAAAAAAA" "tail").
  - reflexivity.
  - reflexivity.
Defined.

Lemma splitComma_nonempty (s piece : string) :
  exists first others, FileReading.splitComma piece s = first :: others.
Proof.
  revert piece. induction s as [|c s IH]; intros piece; simpl; [eauto|].
  destruct (Ascii.eqb c ","); eauto.
Qed.

(** The data are [undefined] exactly when the text read holds no comma. *)
Theorem base64Data_undefined_iff (result : string) :
  FileReading.base64Data result = None <-> hasComma result = false.
Proof.
  unfold FileReading.base64Data. split.
  - intros H. destruct (hasComma result) eqn:E; [|reflexivity]. exfalso.
    revert H. generalize EmptyString.
    induction result as [|c result IH]; intros piece; [discriminate E|].
    rewrite hasComma_cons in E. simpl.
    destruct (Ascii.eqb c ",") eqn:Ec.
    + destruct (splitComma_nonempty result EmptyString) as (first & others & ->).
      intros H. discriminate H.
    + rewrite Ascii.eqb_sym, Ec in E. simpl in E. apply IH. exact E.
  - intros H. rewrite (splitComma_no_comma _ _ H). reflexivity.
Qed.

(** ** [RatingDisplay] *)

Lemma truncate_inject_Z (z : Z) : RatingDisplay.truncate (inject_Z z) = z.
Proof. unfold RatingDisplay.truncate. simpl. apply Z.quot_1_r. Qed.

Lemma truncate_nonneg (x : Q) : 0 <= x -> RatingDisplay.truncate x = Qfloor x.
Proof.
  destruct x as [n d]. unfold Qle, RatingDisplay.truncate, Qfloor. simpl. intros H.
  apply Z.quot_div_nonneg; lia.
Qed.

Lemma inject_Z_lt (a b : Z) : inject_Z a < inject_Z b -> (a < b)%Z.
Proof. unfold Qlt. simpl. lia. Qed.

Lemma inject_Z_le (a b : Z) : inject_Z a <= inject_Z b -> (a <= b)%Z.
Proof. unfold Qle. simpl. lia. Qed.

(** The ceiling is the floor for a whole number, one more otherwise. *)
Lemma Qceiling_Qfloor (x : Q) :
  (x == inject_Z (Qfloor x) -> Qceiling x = Qfloor x) /\
  (inject_Z (Qfloor x) < x -> Qceiling x = (Qfloor x + 1)%Z).
Proof.
  pose proof (Qfloor_le x) as F1. pose proof (Qlt_floor x) as F2.
  pose proof (Qle_ceiling x) as C1. pose proof (Qceiling_lt x) as C2.
  assert (Hle : (Qfloor x <= Qceiling x)%Z) by (apply inject_Z_le, Qle_floor_ceiling).
  assert (Hup : (Qceiling x - 1 < Qfloor x + 1)%Z).
  { apply inject_Z_lt. eapply Qlt_trans; eassumption. }
  split.
  - intros E. assert (H : (Qceiling x - 1 < Qfloor x)%Z); [|lia].
    apply inject_Z_lt. lra.
  - intros L. assert (Qfloor x < Qceiling x)%Z; [|lia].
    apply inject_Z_lt. eapply Qlt_le_trans; eassumption.
Qed.

Lemma arrayLength_inject_Z (z : Z) :
  (z < 2 ^ 32)%Z ->
  RatingDisplay.arrayLength (inject_Z z) = Some (Z.to_nat z).
Proof.
  intros H. unfold RatingDisplay.arrayLength. rewrite truncate_inject_Z.
  destruct (z <=? 0)%Z eqn:E0.
  - apply Z.leb_le in E0. f_equal. lia.
  - destruct (2 ^ 32 <=? z)%Z eqn:E1; [|reflexivity]. apply Z.leb_le in E1. lia.
Qed.

(** For a score that is not negative, [RatingDisplay] renders as many full
    stars as the score has whole points, a partial star exactly when a part
    is left, and empty stars up to [maxScore]: [maxScore] stars in all when
    the score is within [maxScore], and as many as the score rounded up
    when it is beyond (nothing caps it).  The partial star takes two icons,
    so that a score with a part left is drawn with one icon more than there
    are stars. *)
Theorem RatingDisplay_star_count (score : Q) (maxScore : Z) :
  0 <= score ->
  (0 <= maxScore < 2 ^ 32)%Z ->
  (Qceiling score < 2 ^ 32)%Z ->
  exists stars,
    RatingDisplay.RatingDisplay score (inject_Z maxScore) = Some stars /\
    Z.of_nat (RatingDisplay.filled stars) = Qfloor score /\
    (RatingDisplay.partialWidth stars = None <-> score == inject_Z (Qfloor score)) /\
    Z.of_nat (RatingDisplay.empty stars) = Z.max 0 (maxScore - Qceiling score) /\
    Z.of_nat (RatingDisplay.starsShown stars) = Z.max maxScore (Qceiling score) /\
    (score <= inject_Z maxScore -> Z.of_nat (RatingDisplay.starsShown stars) = maxScore) /\
    Z.of_nat (RatingDisplay.starIcons stars)
    = (Z.of_nat (RatingDisplay.starsShown stars) + (Qceiling score - Qfloor score))%Z.
Proof.
  intros Hscore HM Hceil.
  assert (Hfloor : (0 <= Qfloor score)%Z).
  { change 0%Z with (Qfloor 0). apply Qfloor_resp_le. exact Hscore. }
  pose proof (inject_Z_le _ _ (Qle_floor_ceiling score)) as Hfc.
  destruct (Qceiling_Qfloor score) as [Cwhole Cpart].
  unfold RatingDisplay.RatingDisplay.
  rewrite arrayLength_inject_Z by lia.
  assert (Hempty : inject_Z maxScore - inject_Z (Qceiling score)
                   == inject_Z (maxScore - Qceiling score)).
  { unfold Qeq, Qminus, Qplus, Qopp, inject_Z. simpl. lia. }
  assert (Earr : RatingDisplay.arrayLength (inject_Z maxScore - inject_Z (Qceiling score))
                 = Some (Z.to_nat (maxScore - Qceiling score))).
  { rewrite <- arrayLength_inject_Z by lia.
    unfold RatingDisplay.arrayLength, RatingDisplay.truncate, Qminus, Qplus, Qopp, inject_Z.
    simpl. rewrite !Z.quot_1_r.
    replace (maxScore * 1 + - Qceiling score * 1)%Z with (maxScore - Qceiling score)%Z by lia.
    reflexivity. }
  rewrite Earr. eexists. split; [reflexivity|].
  unfold RatingDisplay.starsShown, RatingDisplay.starIcons.
  cbn [RatingDisplay.filled RatingDisplay.partialWidth RatingDisplay.empty].
  unfold RatingDisplay.remainder1. rewrite (truncate_nonneg score Hscore).
  pose proof (Qfloor_le score) as F1.
  split; [lia|].
  destruct (Qlt_le_dec 0 (score - inject_Z (Qfloor score))) as [Hpart|Hwhole].
  - assert (Hlt : inject_Z (Qfloor score) < score) by lra.
    specialize (Cpart Hlt).
    split; [split; [discriminate|intros E; exfalso; lra]|].
    split; [lia|]. split; [lia|]. split; [|lia].
    intros Hle. apply Qceiling_resp_le in Hle. rewrite Qceiling_Z in Hle. lia.
  - assert (Heq : score == inject_Z (Qfloor score)) by lra.
    specialize (Cwhole Heq).
    split; [split; [intros _; exact Heq|reflexivity]|].
    split; [lia|]. split; [lia|]. split; [|lia].
    intros Hle. apply Qceiling_resp_le in Hle. rewrite Qceiling_Z in Hle. lia.
Qed.

Lemma RatingDisplay_star_count_witness :
  exists stars,
    RatingDisplay.RatingDisplay (7 # 2) (inject_Z 5) = Some stars /\
    Z.of_nat (RatingDisplay.filled stars) = Qfloor (7 # 2) /\
    (RatingDisplay.partialWidth stars = None <-> 7 # 2 == inject_Z (Qfloor (7 # 2))) /\
    Z.of_nat (RatingDisplay.empty stars) = Z.max 0 (5 - Qceiling (7 # 2)) /\
    Z.of_nat (RatingDisplay.starsShown stars) = Z.max 5 (Qceiling (7 # 2)) /\
    (7 # 2 <= inject_Z 5 -> Z.of_nat (RatingDisplay.starsShown stars) = 5%Z) /\
    Z.of_nat (RatingDisplay.starIcons stars)
    = (Z.of_nat (RatingDisplay.starsShown stars) + (Qceiling (7 # 2) - Qfloor (7 # 2)))%Z.
Proof.
  apply (RatingDisplay_star_count (7 # 2) 5).
  - unfold Qle. simpl. lia.
  - lia.
  - vm_compute. reflexivity.
Defined.

Lemma starFilled_floor (score : Q) (index : nat) :
  RatingDisplay.starFilled score index = (index <? Z.to_nat (Qfloor score))%nat.
Proof.
  unfold RatingDisplay.starFilled.
  assert (E : inject_Z (Z.of_nat index) + 1 == inject_Z (Z.of_nat index + 1)).
  { rewrite inject_Z_plus. reflexivity. }
  destruct (index <? Z.to_nat (Qfloor score))%nat eqn:Hlt.
  - apply Nat.ltb_lt in Hlt. apply Qle_bool_iff. rewrite E.
    apply Qle_trans with (inject_Z (Qfloor score)); [|apply Qfloor_le].
    unfold Qle. simpl. lia.
  - apply Nat.ltb_ge in Hlt.
    destruct (Qle_bool _ score) eqn:Hb; [|reflexivity].
    apply Qle_bool_iff in Hb. rewrite E in Hb.
    apply Qfloor_resp_le in Hb. rewrite Qfloor_Z in Hb. lia.
Qed.

Lemma map_ltb_seq (K n start : nat) :
  map (fun i => (i <? K)%nat) (seq start n)
  = repeat true (Nat.min n (K - start)) ++ repeat false (n - Nat.min n (K - start)).
Proof.
  revert start. induction n as [|n IH]; intros start; [reflexivity|].
  simpl seq. simpl map. rewrite IH.
  destruct (start <? K)%nat eqn:E.
  - apply Nat.ltb_lt in E.
    replace (Nat.min (S n) (K - start)) with (S (Nat.min n (K - S start))) by lia.
    simpl. reflexivity.
  - apply Nat.ltb_ge in E.
    replace (Nat.min (S n) (K - start)) with 0%nat by lia.
    replace (Nat.min n (K - S start)) with 0%nat by lia.
    simpl. rewrite Nat.sub_0_r. reflexivity.
Qed.

(** The revision without partial stars always renders [maxScore] icons:
    first as many filled ones as the score has whole points, [maxScore] at
    most, then empty ones.  A part of a point fills nothing. *)
Theorem RatingDisplayWhole_filled_prefix (score : Q) (maxScore : Z) :
  (0 <= maxScore < 2 ^ 32)%Z ->
  let n := Z.to_nat maxScore in
  let k := Nat.min n (Z.to_nat (Qfloor score)) in
  RatingDisplay.RatingDisplayWhole score (inject_Z maxScore)
  = Some (repeat true k ++ repeat false (n - k)).
Proof.
  intros HM n k. unfold RatingDisplay.RatingDisplayWhole.
  rewrite arrayLength_inject_Z by lia. f_equal.
  rewrite (map_ext _ (fun i => (i <? Z.to_nat (Qfloor score))%nat) (starFilled_floor score)).
  rewrite map_ltb_seq. rewrite Nat.sub_0_r. reflexivity.
Qed.

Lemma RatingDisplayWhole_filled_prefix_witness :
  RatingDisplay.RatingDisplayWhole (7 # 2) (inject_Z 5)
  = Some [true; true; true; false; false].
Proof.
  apply (RatingDisplayWhole_filled_prefix (7 # 2) 5). lia.
Defined.

(** ** [App], the revision with one file *)

Lemma AppSingle_view_of_outcome {File Result : Type}
  (analyze : File -> Settled Result) (st : AppSingle.State File Result) (f : File) :
  AppSingle.file st = Some f ->
  AppSingle.renderContent (AppSingle.handleAnalyzeClick analyze st)
  = match analyze f with
    | Fulfilled r => AppSingle.Report r
    | Rejected err =>
        if String.eqb (AppSingle.errorMessage err) EmptyString
        then AppSingle.Upload (Some f)
        else AppSingle.ErrorBox (AppSingle.errorMessage err)
    end.
Proof.
  intros Hf. unfold AppSingle.handleAnalyzeClick. rewrite Hf.
  destruct (analyze f) as [r|err]; [reflexivity|].
  unfold AppSingle.renderContent. simpl.
  destruct (String.eqb (AppSingle.errorMessage err) ""); reflexivity.
Qed.

(** After a click on the button with a file selected, the page shows the
    report when the analysis succeeded and the message of the error when it
    failed; an error whose message is empty shows nothing: the page is back
    at the upload form, the file still selected. *)
Theorem AppSingle_view_after_analysis {File Result : Type}
  (analyze : File -> Settled Result) (st : AppSingle.State File Result) (f : File) :
  AppSingle.file st = Some f ->
  AppSingle.renderContent (AppSingle.handleAnalyzeClick analyze st)
  = match analyze f with
    | Fulfilled r => AppSingle.Report r
    | Rejected err =>
        if String.eqb (AppSingle.errorMessage err) EmptyString
        then AppSingle.Upload (Some f)
        else AppSingle.ErrorBox (AppSingle.errorMessage err)
    end.
Proof. intros. eapply AppSingle_view_of_outcome; eassumption. Qed.

Lemma AppSingle_view_after_analysis_witness :
  AppSingle.renderContent
    (AppSingle.handleAnalyzeClick
       (fun _ : string => @Rejected nat (AnError (mkError "Error" "")))
       (AppSingle.handleFileSelect "talk.mp3"%string AppSingle.initial))
  = AppSingle.Upload (Some "talk.mp3"%string).
Proof.
  apply (AppSingle_view_after_analysis
           (fun _ : string => @Rejected nat (AnError (mkError "Error" "")))
           (AppSingle.handleFileSelect "talk.mp3"%string AppSingle.initial)
           "talk.mp3"%string).
  reflexivity.
Defined.

(** After the click the page is never left loading, and it holds a report
    or an error message, never both and never neither. *)
Theorem AppSingle_report_or_error {File Result : Type}
  (analyze : File -> Settled Result) (st : AppSingle.State File Result) (f : File) :
  AppSingle.file st = Some f ->
  let st' := AppSingle.handleAnalyzeClick analyze st in
  AppSingle.isLoading st' = false /\
  AppSingle.file st' = Some f /\
  (AppSingle.result st' = None <-> AppSingle.error st' <> None).
Proof.
  intros Hf. cbv zeta. unfold AppSingle.handleAnalyzeClick. rewrite Hf.
  destruct (analyze f); simpl; repeat split; try discriminate; congruence.
Qed.

Lemma AppSingle_report_or_error_witness :
  let st' := AppSingle.handleAnalyzeClick (fun _ : string => Fulfilled 7%nat)
               (AppSingle.handleFileSelect "talk.mp3"%string AppSingle.initial) in
  AppSingle.isLoading st' = false /\
  AppSingle.file st' = Some "talk.mp3"%string /\
  (AppSingle.result st' = None <-> AppSingle.error st' <> None).
Proof.
  apply (AppSingle_report_or_error (fun _ : string => Fulfilled 7%nat)
           (AppSingle.handleFileSelect "talk.mp3"%string AppSingle.initial) "talk.mp3"%string).
  reflexivity.
Defined.

(** A click without a file asks for one and calls no analysis; choosing a
    file, or a reset, wipes the report and the message that were there. *)
Theorem AppSingle_without_file_and_fresh_start {File Result : Type}
  (analyze analyze' : File -> Settled Result) (st : AppSingle.State File Result) (f : File) :
  AppSingle.isLoading st = false ->
  (AppSingle.file st = None ->
   AppSingle.handleAnalyzeClick analyze st = AppSingle.handleAnalyzeClick analyze' st /\
   AppSingle.renderContent (AppSingle.handleAnalyzeClick analyze st)
   = AppSingle.ErrorBox "Please select an audio file first.") /\
  AppSingle.renderContent (AppSingle.handleFileSelect f st) = AppSingle.Upload (Some f) /\
  AppSingle.renderContent (AppSingle.handleReset st) = AppSingle.Upload None.
Proof.
  intros Hl. split; [|split].
  - intros Hf. unfold AppSingle.handleAnalyzeClick. rewrite Hf. split; [reflexivity|].
    unfold AppSingle.renderContent. simpl. rewrite Hl. reflexivity.
  - unfold AppSingle.renderContent. simpl. rewrite Hl. reflexivity.
  - reflexivity.
Qed.

Lemma AppSingle_without_file_and_fresh_start_witness :
  AppSingle.renderContent
    (AppSingle.handleAnalyzeClick (fun _ : string => Fulfilled 7%nat) AppSingle.initial)
  = AppSingle.ErrorBox "Please select an audio file first.".
Proof.
  destruct (AppSingle_without_file_and_fresh_start
              (fun _ : string => Fulfilled 7%nat) (fun _ : string => Fulfilled 8%nat)
              AppSingle.initial "talk.mp3"%string eq_refl) as [H _].
  destruct (H eq_refl) as [_ Hview]. exact Hview.
Defined.

(** The page on top of the aggregator: with three validated runs it shows
    the report that has the feedback, the filler words and the conversation
    of the first run and its dimension names; without a key it shows the
    configuration message; and when a run that lacks a field is the first
    to settle, it shows the message for missing fields. *)
Theorem AppSingle_shows_what_analyzeAudio_gives {File : Type}
  API_KEY service order (analyze : File -> Settled AnalysisResult)
  (st : AppSingle.State File AnalysisResult) (f : File) :
  AppSingle.file st = Some f ->
  asPromise (GeminiService.analyzeAudio API_KEY service order) = Some (analyze f) ->
  let view := AppSingle.renderContent (AppSingle.handleAnalyzeClick analyze st) in
  (forall r0 r1 r2,
      keySet API_KEY -> validatedRuns service r0 r1 r2 ->
      exists r, view = AppSingle.Report r /\
                feedback r = feedback r0 /\
                fillerWords r = fillerWords r0 /\
                conversation r = conversation r0 /\
                map name (dimensionAnalysis r) = map name (dimensionAnalysis r0)) /\
  (~ keySet API_KEY ->
   view = AppSingle.ErrorBox (errMessage GeminiService.configurationError)) /\
  (forall i rest,
      keySet API_KEY -> (i < 3)%nat -> order = i :: rest ->
      GeminiService.performSingleAnalysis (service i)
      = Rejected (AnError GeminiService.missingFieldsError) ->
      view = AppSingle.ErrorBox "Invalid response structure from API. Missing required fields.").
Proof.
  intros Hf Hp. cbv zeta. rewrite (AppSingle_view_of_outcome analyze st f Hf).
  split; [|split].
  - intros r0 r1 r2 Hkey Hv.
    rewrite (analyzeAudio_returns API_KEY service order r0 r1 r2 Hkey Hv) in Hp.
    injection Hp as <-. eexists. split; [reflexivity|].
    simpl. unfold GeminiService.averagedDimensions. rewrite map_map. auto.
  - intros Hkey. unfold GeminiService.analyzeAudio, keySet in *.
    destruct (truthy (option_map Str API_KEY)); [congruence|].
    simpl in Hp. injection Hp as <-. reflexivity.
  - intros i rest Hkey Hi -> Hrun.
    rewrite (first_settled_failure_is_thrown API_KEY service rest i _ Hkey Hi Hrun)
      in Hp.
    injection Hp as <-. reflexivity.
Qed.

Lemma AppSingle_shows_what_analyzeAudio_gives_witness :
  (exists r,
      AppSingle.renderContent
        (AppSingle.handleAnalyzeClick
           (fun _ : string =>
              Fulfilled (GeminiService.mergeResults
                           (sampleResult 3 [("Clarity"%string, 2)] "first")
                           [sampleResult 3 [("Clarity"%string, 2)] "first";
                            sampleResult 4 [("Clarity"%string, 3)] "second";
                            sampleResult 5 [("Clarity"%string, 4)] "third"]))
           (AppSingle.handleFileSelect "talk.mp3"%string AppSingle.initial))
      = AppSingle.Report r /\
      feedback r = ["first"%string]) /\
  AppSingle.renderContent
    (AppSingle.handleAnalyzeClick
       (fun _ : string => @Rejected AnalysisResult (AnError GeminiService.configurationError))
       (AppSingle.handleFileSelect "talk.mp3"%string AppSingle.initial))
  = AppSingle.ErrorBox (errMessage GeminiService.configurationError).
Proof.
  split.
  - destruct (AppSingle_shows_what_analyzeAudio_gives (Some "secret"%string) service345 []
                (fun _ : string =>
                   Fulfilled (GeminiService.mergeResults
                                (sampleResult 3 [("Clarity"%string, 2)] "first")
                                [sampleResult 3 [("Clarity"%string, 2)] "first";
                                 sampleResult 4 [("Clarity"%string, 3)] "second";
                                 sampleResult 5 [("Clarity"%string, 4)] "third"]))
                (AppSingle.handleFileSelect "talk.mp3"%string AppSingle.initial)
                "talk.mp3"%string eq_refl) as (H & _ & _).
    + rewrite (analyzeAudio_returns (Some "secret"%string) service345 [] _ _ _
                 eq_refl service345_runs). reflexivity.
    + destruct (H _ _ _ (eq_refl : keySet (Some "secret"%string)) service345_runs)
        as (r & Hview & Hfeedback & _).
      exists r. split; [exact Hview|]. rewrite Hfeedback. reflexivity.
  - destruct (AppSingle_shows_what_analyzeAudio_gives None service345 []
                (fun _ : string =>
                   @Rejected AnalysisResult (AnError GeminiService.configurationError))
                (AppSingle.handleFileSelect "talk.mp3"%string AppSingle.initial)
                "talk.mp3"%string eq_refl eq_refl) as (_ & H & _).
    apply H. discriminate.
Defined.

(** ** [App], the revision with the two tabs *)

(** On the tab for one analysis, after a file was handed in the page shows
    the results card of exactly the result returned, or the error box with
    the message of the error; the upload form is not shown again. *)
Theorem App_view_after_single_file {File Result Comparison : Type}
  (outcome : Settled Result) (st : App.State File Result Comparison) :
  App.activeTab st = App.analyze ->
  App.renderContent (App.handleSingleFile outcome st)
  = match outcome with
    | Fulfilled r => App.ResultsCard r
    | Rejected err => App.ErrorBox (Some (App.errorMessage err))
    end.
Proof.
  intros Htab. destruct outcome; unfold App.renderContent; simpl; [rewrite Htab|]; reflexivity.
Qed.

Lemma App_view_after_single_file_witness :
  App.renderContent
    (App.handleSingleFile (Rejected (NotAnError (Str "boom")))
       (@App.initial string nat bool))
  = App.ErrorBox (Some "An unknown error occurred."%string).
Proof.
  apply (App_view_after_single_file (Rejected (NotAnError (Str "boom")))
           (@App.initial string nat bool)).
  reflexivity.
Defined.

(** Without both files a comparison does nothing at all, and the form
    shows its button disabled. *)
Theorem App_comparison_needs_both_files {File Result Comparison : Type}
  (analyzeOld analyzeNew : Settled Result)
  (report : Result -> Result -> Settled (option Comparison))
  (st : App.State File Result Comparison) :
  App.activeTab st = App.compare ->
  App.oldFile st = None \/ App.newFile st = None ->
  App.handleComparisonFiles analyzeOld analyzeNew report st = st /\
  App.idleView st = App.PairUpload (App.oldFile st) (App.newFile st) true.
Proof.
  intros Htab Hmissing. unfold App.handleComparisonFiles, App.idleView. rewrite Htab.
  destruct Hmissing as [H|H]; rewrite H; [|destruct (App.oldFile st)]; split; reflexivity.
Qed.

Lemma App_comparison_needs_both_files_witness :
  let st := App.mkState App.compare App.idle None "Analyzing... This may take a few moments."
              (@None nat) (Some "old.mp3"%string) None None None (@None bool) in
  App.handleComparisonFiles (Fulfilled 3%nat) (Fulfilled 4%nat)
    (fun o n => Fulfilled (Some (Nat.ltb o n))) st = st /\
  App.idleView st = App.PairUpload (Some "old.mp3"%string) None true.
Proof.
  apply (App_comparison_needs_both_files (Fulfilled 3%nat) (Fulfilled 4%nat)
           (fun o n => Fulfilled (Some (Nat.ltb o n)))
           (App.mkState App.compare App.idle None "Analyzing... This may take a few moments."
              (@None nat) (Some "old.mp3"%string) None None None (@None bool))).
  - reflexivity.
  - right. reflexivity.
Defined.

(** On the tab for a comparison, with both files chosen, the page shows
    the comparison card only when the two analyses and the report all
    succeeded and the report is a truthy value, and then with exactly their
    three results; a report that is [null] or falsy leaves the page at the
    upload form, without a card and without an error; any failure shows the
    error box, and a step that fails spares the steps after it. *)
Theorem App_view_after_comparison {File Result Comparison : Type}
  (analyzeOld analyzeNew : Settled Result)
  (report : Result -> Result -> Settled (option Comparison))
  (st : App.State File Result Comparison) (older newer : File) :
  App.activeTab st = App.compare ->
  App.oldFile st = Some older ->
  App.newFile st = Some newer ->
  let st' := App.handleComparisonFiles analyzeOld analyzeNew report st in
  App.renderContent st'
  = match analyzeOld with
    | Rejected err => App.ErrorBox (Some (App.errorMessage err))
    | Fulfilled o =>
        match analyzeNew with
        | Rejected err => App.ErrorBox (Some (App.errorMessage err))
        | Fulfilled n =>
            match report o n with
            | Rejected err => App.ErrorBox (Some (App.errorMessage err))
            | Fulfilled (Some c) => App.ComparisonResultsCard c o n
            | Fulfilled None => App.PairUpload (Some older) (Some newer) false
            end
        end
    end
  /\ (App.appState st' = App.success <->
      exists o n c, analyzeOld = Fulfilled o /\ analyzeNew = Fulfilled n /\
                    report o n = Fulfilled c).
Proof.
  intros Htab Hold Hnew. cbv zeta. unfold App.handleComparisonFiles. rewrite Hold, Hnew.
  destruct analyzeOld as [o|e].
  - destruct analyzeNew as [n|e].
    + destruct (report o n) as [[c|]|e] eqn:Er.
      * split; [unfold App.renderContent; simpl; rewrite Htab; reflexivity|].
        split; [intros _; exists o, n, (Some c); auto|reflexivity].
      * split.
        -- unfold App.renderContent, App.idleView. simpl.
           rewrite Htab. reflexivity.
        -- split; [intros _; exists o, n, None; auto|reflexivity].
      * split; [reflexivity|]. split; [discriminate|].
        intros (o' & n' & c & [= <-] & [= <-] & H). congruence.
    + split; [reflexivity|]. split; [discriminate|].
      intros (o' & n' & c & _ & H & _). discriminate.
  - split; [reflexivity|]. split; [discriminate|].
    intros (o' & n' & c & H & _). discriminate.
Qed.

Lemma App_view_after_comparison_witness :
  let st := App.mkState App.compare App.idle None "Analyzing... This may take a few moments."
              (@None nat) (Some "old.mp3"%string) (Some "new.mp3"%string) None None (@None bool) in
  (let st' := App.handleComparisonFiles (Fulfilled 3%nat) (Fulfilled 4%nat)
                (fun o n => Fulfilled (Some (Nat.ltb o n))) st in
   App.renderContent st' = App.ComparisonResultsCard true 3%nat 4%nat
   /\ (App.appState st' = App.success <->
       exists o n c, Fulfilled 3%nat = Fulfilled o /\ Fulfilled 4%nat = Fulfilled n /\
                     Fulfilled (Some (Nat.ltb o n)) = Fulfilled c)) /\
  (let st' := App.handleComparisonFiles (Fulfilled 3%nat) (Fulfilled 4%nat)
                (fun _ _ => Fulfilled None) st in
   App.renderContent st'
   = App.PairUpload (Some "old.mp3"%string) (Some "new.mp3"%string) false
   /\ (App.appState st' = App.success <->
       exists o n c, Fulfilled 3%nat = Fulfilled o /\ Fulfilled 4%nat = Fulfilled n /\
                     @Fulfilled (option bool) None = Fulfilled c)).
Proof.
  split.
  - apply (App_view_after_comparison (Fulfilled 3%nat) (Fulfilled 4%nat)
             (fun o n => Fulfilled (Some (Nat.ltb o n)))
             (App.mkState App.compare App.idle None "Analyzing... This may take a few moments."
                (@None nat) (Some "old.mp3"%string) (Some "new.mp3"%string) None None
                (@None bool))
             "old.mp3"%string "new.mp3"%string); reflexivity.
  - apply (App_view_after_comparison (Fulfilled 3%nat) (Fulfilled 4%nat)
             (fun _ _ => Fulfilled None)
             (App.mkState App.compare App.idle None "Analyzing... This may take a few moments."
                (@None nat) (Some "old.mp3"%string) (Some "new.mp3"%string) None None
                (@None bool))
             "old.mp3"%string "new.mp3"%string); reflexivity.
Defined.

(** After a comparison was run, the state holds the results of the steps
    that succeeded before the first failure and of no other: the older
    analysis when it succeeded, the newer one when both did, the report,
    if it is a truthy value, when all three did; an earlier comparison is
    gone. *)
Theorem App_comparison_stores_finished_steps {File Result Comparison : Type}
  (analyzeOld analyzeNew : Settled Result)
  (report : Result -> Result -> Settled (option Comparison))
  (st : App.State File Result Comparison) (older newer : File) :
  App.oldFile st = Some older ->
  App.newFile st = Some newer ->
  let st' := App.handleComparisonFiles analyzeOld analyzeNew report st in
  (forall o, App.oldAnalysisResult st' = Some o <-> analyzeOld = Fulfilled o) /\
  (forall n, App.newAnalysisResult st' = Some n <->
             analyzeNew = Fulfilled n /\ exists o, analyzeOld = Fulfilled o) /\
  (forall c, App.comparisonResult st' = Some c <->
             exists o n, analyzeOld = Fulfilled o /\ analyzeNew = Fulfilled n /\
                         report o n = Fulfilled (Some c)) /\
  App.oldFile st' = Some older /\ App.newFile st' = Some newer /\
  App.appState st' <> App.loading /\ App.appState st' <> App.idle.
Proof.
  intros Hold Hnew. cbv zeta. unfold App.handleComparisonFiles. rewrite Hold, Hnew.
  destruct analyzeOld as [o|e]; [destruct analyzeNew as [n|e];
    [destruct (report o n) as [[c|]|e] eqn:Er|]|]; simpl;
    repeat split; try discriminate; intros;
    repeat match goal with
           | H : exists _, _ |- _ => destruct H
           | H : _ /\ _ |- _ => destruct H
           | H : Some _ = Some _ |- _ => injection H as H; subst
           | H : Fulfilled _ = Fulfilled _ |- _ => injection H as H; subst
           | H : Some _ = None |- _ => discriminate H
           | H : None = Some _ |- _ => discriminate H
           | H : Rejected _ = Fulfilled _ |- _ => discriminate H
           end;
    try congruence; eauto 6.
Qed.

Lemma App_comparison_stores_finished_steps_witness :
  let st := App.mkState App.compare App.idle None "Analyzing... This may take a few moments."
              (@None nat) (Some "old.mp3"%string) (Some "new.mp3"%string) None None
              (Some true) in
  let st' := App.handleComparisonFiles (Fulfilled 3%nat)
               (Rejected (AnError (mkError "Error" "Failed to analyze audio.")))
               (fun o n => Fulfilled (Some (Nat.ltb o n))) st in
  App.oldAnalysisResult st' = Some 3%nat /\ App.newAnalysisResult st' = None /\
  App.comparisonResult st' = None /\ App.appState st' = App.error.
Proof.
  destruct (App_comparison_stores_finished_steps (Fulfilled 3%nat)
              (Rejected (AnError (mkError "Error" "Failed to analyze audio.")))
              (fun o n => Fulfilled (Some (Nat.ltb o n)))
              (App.mkState App.compare App.idle None "Analyzing... This may take a few moments."
                 (@None nat) (Some "old.mp3"%string) (Some "new.mp3"%string) None None
                 (Some true))
              "old.mp3"%string "new.mp3"%string eq_refl eq_refl) as (H & _).
  cbv zeta. split; [apply H; reflexivity|]. repeat split; reflexivity.
Defined.

(** A reset, from any state, brings back the empty upload form of the tab
    that is open, and a second reset changes nothing; choosing a tab resets
    as well, so nothing of the other tab is carried over. *)
Theorem App_reset_clears_everything {File Result Comparison : Type}
  (st : App.State File Result Comparison) (tab : App.ActiveTab) :
  App.handleReset (App.handleReset st) = App.handleReset st /\
  App.activeTab (App.handleReset st) = App.activeTab st /\
  App.renderContent (App.handleReset st)
  = match App.activeTab st with
    | App.analyze => App.SingleUpload
    | App.compare => App.PairUpload None None true
    end /\
  App.renderContent (App.selectTab tab st)
  = match tab with
    | App.analyze => App.SingleUpload
    | App.compare => App.PairUpload None None true
    end.
Proof.
  split; [reflexivity|]. split; [reflexivity|]. split.
  - unfold App.renderContent, App.idleView. simpl. destruct (App.activeTab st); reflexivity.
  - destruct tab; reflexivity.
Qed.

(** ** [HighlightedText]: how the text is cut *)








(** With mistakes given, no span is empty, and an empty text gives no span
    at all (without mistakes it gives one empty plain span). *)
Theorem HighlightedText_spans_are_not_empty (text : string) (m : Mistake) (ms : list Mistake) :
  exists spans,
    HighlightedText text (Some (m :: ms)) = Some spans /\
    Forall (fun span => spanText span <> EmptyString) spans /\
    (text = EmptyString -> spans = []) /\
    HighlightedText EmptyString None = Some [Plain EmptyString].
Proof.
  destruct (HighlightedText_some text m ms) as (A & HA & ->).
  eexists. split; [reflexivity|]. split; [|split; [|reflexivity]].
  - apply Forall_forall. intros span Hin. apply in_map_iff in Hin.
    destruct Hin as (part & <- & Hpart). rewrite spanText_renderPart.
    apply filter_In in Hpart. destruct Hpart as [_ Hpart].
    apply negb_true_iff, isEmpty_false in Hpart. exact Hpart.
  - intros ->. unfold split in HA.
    destruct (matchDisjunction _ ""); injection HA as <-; reflexivity.
Qed.

Lemma find_first {A} (f : A -> bool) (l : list A) (x : A) :
  find f l = Some x ->
  exists before after,
    l = before ++ x :: after /\ f x = true /\ Forall (fun y => f y = false) before.
Proof.
  induction l as [|a l IH]; simpl; [discriminate|].
  destruct (f a) eqn:E.
  - intros [= <-]. exists [], l. auto.
  - intros H. destruct (IH H) as (before & after & -> & Hx & Hb).
    exists (a :: before), after. auto.
Qed.

(** When several mistakes have the same phrase but for letter case, a
    highlighted span carries the one declared first: no mistake declared
    before the one it carries has a phrase equal to the text of the span. *)
Theorem Highlight_carries_first_equal_mistake (text : string) (m : Mistake) (ms : list Mistake) :
  exists spans,
    HighlightedText text (Some (m :: ms)) = Some spans /\
    forall part mistake,
      In (Highlight part mistake) spans ->
      exists earlier later,
        m :: ms = earlier ++ mistake :: later /\
        toLowerCase (incorrectPhrase mistake) = toLowerCase part /\
        Forall (fun m' => toLowerCase (incorrectPhrase m') <> toLowerCase part) earlier.
Proof.
  destruct (HighlightedText_some text m ms) as (A & HA & ->).
  eexists. split; [reflexivity|].
  intros part mistake Hin. apply in_map_iff in Hin. destruct Hin as (part' & Hrender & _).
  unfold renderPart in Hrender.
  destruct (find _ (m :: ms)) as [mistake'|] eqn:E; [|discriminate].
  injection Hrender as -> ->. apply find_first in E.
  destruct E as (earlier & later & Hlist & Heq & Hearlier).
  exists earlier, later. split; [exact Hlist|]. split; [apply String.eqb_eq; exact Heq|].
  eapply Forall_impl; [|exact Hearlier]. intros m' Hm'. apply String.eqb_neq. exact Hm'.
Qed.

(** ** The scores on the card *)




